(** * The licence-verification handlers, embedded and verified

    The repository holds two Netlify functions, both exported as
    [exports.handler]:

    - the machine-bound handler (the file that reads [code] and [machineId]),
      here [MachineBound.handler];
    - the machine-unbound handler ([netlify/functions/verify.js], which reads
      [code] alone), here [MachineUnbound.handler].

    An [async] function is embedded as a resumption ([Async]): a tree whose
    nodes are the [await]ed store queries and the [console.error] lines, and
    whose leaves are the values the function returns.  The store lives
    outside the handlers; [run] plays a handler against a table of records,
    and [race] interleaves two handlers at their [await]s. *)

From Stdlib Require Import List String Ascii Bool ZArith NArith QArith Lia.
Import ListNotations.
Close Scope Q_scope.
Local Open Scope Z_scope.
Local Open Scope string_scope.
Local Open Scope list_scope.

(** ** JavaScript values *)

(** A JavaScript string is a sequence of UTF-16 code units. *)
Definition JsString := list N.

(** The code units of an ASCII literal. *)
Definition js (s : string) : JsString :=
  map N_of_ascii (list_ascii_of_string s).

Fixpoint jsstr_eqb (a b : JsString) : bool :=
  match a, b with
  | [], [] => true
  | x :: a', y :: b' => N.eqb x y && jsstr_eqb a' b'
  | _, _ => false
  end.

(** The numbers [JSON.parse] can produce: every finite double is a rational,
    an overflowing literal gives an infinity, and NaN never arises.  Only the
    zero test and equality of numbers are used below, and both are exact on
    rationals ([-0] and [0] are one rational, as [-0 === 0] demands). *)
Inductive JsNumber :=
| Finite (q : Q)
| Infinite (negative : bool).

#[local] Set Warnings "-register-all".
Inductive JsValue :=
| JUndefined
| JNull
| JBool (b : bool)
| JNum (n : JsNumber)
| JStr (s : JsString)
| JArr (elems : list JsValue)
| JObj (props : list (JsString * JsValue)).

(** ToBoolean, as applied by [!x] and [if (x)]. *)
Definition truthy (v : JsValue) : bool :=
  match v with
  | JUndefined | JNull => false
  | JBool b => b
  | JNum (Finite q) => negb (Qeq_bool q 0)
  | JNum (Infinite _) => true
  | JStr s => match s with [] => false | _ :: _ => true end
  | JArr _ | JObj _ => true
  end.

(** [typeof v === "string"]. *)
Definition is_string (v : JsValue) : bool :=
  match v with JStr _ => true | _ => false end.

(** [a === b], for [a] a field of a store reply and [b] a value parsed from
    the request: the two never alias, so arrays and objects, which compare by
    identity, are never equal. *)
Definition strict_equals (a b : JsValue) : bool :=
  match a, b with
  | JUndefined, JUndefined => true
  | JNull, JNull => true
  | JBool x, JBool y => Bool.eqb x y
  | JNum (Finite x), JNum (Finite y) => Qeq_bool x y
  | JNum (Infinite x), JNum (Infinite y) => Bool.eqb x y
  | JStr x, JStr y => jsstr_eqb x y
  | _, _ => false
  end.

(** [v[key]] for the two keys the handlers read, [code] and [machineId].  An
    object made by [JSON.parse] has its members as own properties, a repeated
    member keeping its last value; no prototype defines either key, so on
    every other value the result is [undefined]. *)
Fixpoint own_property (props : list (JsString * JsValue)) (key : JsString)
  : JsValue :=
  match props with
  | [] => JUndefined
  | (k, v) :: rest =>
      match own_property rest key with
      | JUndefined => if jsstr_eqb k key then v else JUndefined
      | later => later
      end
  end.

Definition get (v : JsValue) (key : JsString) : JsValue :=
  match v with
  | JObj props => own_property props key
  | _ => JUndefined
  end.

(** ** String.prototype.trim *)

(** WhiteSpace and LineTerminator of ECMAScript: TAB, LF, VT, FF, CR, SP,
    NBSP, U+1680, U+2000..U+200A, LS, PS, U+202F, U+205F, U+3000 and the byte
    order mark. *)
Definition is_white_space (c : N) : bool :=
  ((9 <=? c) && (c <=? 13) || (c =? 32) || (c =? 160) || (c =? 5760)
   || (8192 <=? c) && (c <=? 8202) || (c =? 8232) || (c =? 8233)
   || (c =? 8239) || (c =? 8287) || (c =? 12288) || (c =? 65279))%N.

Fixpoint trimStart (s : JsString) : JsString :=
  match s with
  | [] => []
  | c :: rest => if is_white_space c then trimStart rest else s
  end.

Definition trimEnd (s : JsString) : JsString := rev (trimStart (rev s)).

Definition trim (s : JsString) : JsString := trimEnd (trimStart s).

(** ** Completions: a value, or a thrown exception *)

Inductive Completion (A : Type) :=
| Normal (a : A)
| Thrown.
Arguments Normal {A} a.
Arguments Thrown {A}.

(** [code.trim()]: only a string has the method; on any other truthy value
    [code.trim] is not a function and the call throws a TypeError. *)
Definition call_trim (v : JsValue) : Completion JsString :=
  match v with
  | JStr s => Normal (trim s)
  | _ => Thrown
  end.

(** [const { code, machineId } = v]: destructuring [null] or [undefined]
    throws a TypeError; any other value is read property by property. *)
Definition destructure (v : JsValue) : Completion (JsValue * JsValue) :=
  match v with
  | JUndefined | JNull => Thrown
  | _ => Normal (get v (js "code"), get v (js "machineId"))
  end.

(** ** The event, the response and the host *)

(** [event.body] reaches the handlers only through [JSON.parse(event.body)],
    so a body is represented by what the parser makes of it: a syntax error
    (also an absent, [undefined] body) or a value ([null] for a [null]
    body). *)
Inductive RequestBody :=
| Unparsable
| Json (v : JsValue).

Definition JSON_parse (b : RequestBody) : Completion JsValue :=
  match b with
  | Unparsable => Thrown
  | Json v => Normal v
  end.

Module Event.
Record t := { httpMethod : JsString; body : RequestBody }.
End Event.

(** A response body is the empty string or
    [JSON.stringify({ success, message })]. *)
Inductive ResponseBody :=
| Empty
| Stringified (success : bool) (message : string).

Module Response.
Record t :=
  { statusCode : Z; headers : list (string * string); body : ResponseBody }.
End Response.

(** The [headers] constant both handlers attach to every response. *)
Definition cors_headers : list (string * string) :=
  [ ("Access-Control-Allow-Origin", "*");
    ("Access-Control-Allow-Headers", "Content-Type");
    ("Access-Control-Allow-Methods", "POST, OPTIONS") ].

Definition respond (status : Z) (success : bool) (message : string)
  : Response.t :=
  {| Response.statusCode := status;
     Response.headers := cors_headers;
     Response.body := Stringified success message |}.

(** What an invocation reads from its process: the two environment
    variables, whether [createClient] throws on them, and the instant
    [new Date()] yields. *)
Record Host :=
  { SUPABASE_URL : option JsString;
    SUPABASE_ANON_KEY : option JsString;
    createClient_throws : bool;
    now : Z }.

(** [process.env.NAME]: a string, or [undefined] when unset. *)
Definition env (value : option JsString) : JsValue :=
  match value with
  | Some s => JStr s
  | None => JUndefined
  end.

Definition createClient (host : Host) (url key : JsValue) : Completion unit :=
  if createClient_throws host then Thrown else Normal tt.

(** ** The code store *)

(** Modelled from the spec: the table [verification_codes] is declared
    outside the repository; its columns are those of the VerificationCode
    record of the data model.  [machine_id] holds the JSON value that reached
    the store ([JNull] until then), since the handler that writes it never
    checks that [machineId] is a string. *)
Record VerificationCode :=
  { id : Z;
    code : JsString;
    is_used : bool;
    machine_id : JsValue;
    used_at : option Z }.

Definition Table := list VerificationCode.

Module PostgrestError.
Record t := { code : JsString }.
End PostgrestError.

(** The object a query resolves to: [{ data, error }]. *)
Record Reply :=
  { data : option VerificationCode; error : option PostgrestError.t }.

(** The columns an [.update({...})] sets; [machine_id] is absent from the
    machine-unbound handler's update. *)
Record Patch :=
  { set_is_used : bool; set_used_at : Z; set_machine_id : option JsValue }.

(** The two queries the handlers build on [verification_codes]. *)
Inductive Query :=
| SelectSingle (code_eq : JsString)
| UpdateById (patch : Patch) (id_eq : Z).

(** How an awaited query settles. *)
Inductive Settled :=
| Fulfilled (reply : Reply)
| Rejected.

(** ** Asynchronous functions as resumptions *)

(** [Return] is the function's [return], [ConsoleError] a call of
    [console.error] (the line is its first argument; the error object printed
    after it is left out) and [Await] an awaited query with what the function
    does once the query has settled. *)
Inductive Async (A : Type) :=
| Return (a : A)
| ConsoleError (line : string) (next : Async A)
| Await (q : Query) (resume : Settled -> Async A).
Arguments Return {A} a.
Arguments ConsoleError {A} line next.
Arguments Await {A} q resume.

(** [try { body } catch (error) { handler }]: a [return] inside [body] leaves
    the function, a throw enters [handler]. *)
Fixpoint try_catch {R : Type} (body : Async (Completion R)) (handler : Async R)
  : Async R :=
  match body with
  | Return (Normal r) => Return r
  | Return Thrown => handler
  | ConsoleError line next => ConsoleError line (try_catch next handler)
  | Await q resume => Await q (fun s => try_catch (resume s) handler)
  end.

(** A synchronous step that may throw, followed by the rest of the block. *)
Definition attempt {X R : Type} (c : Completion X)
  (rest : X -> Async (Completion R)) : Async (Completion R) :=
  match c with
  | Normal x => rest x
  | Thrown => Return Thrown
  end.

(** [await query]: a rejected promise throws at the [await]. *)
Definition await {R : Type} (q : Query) (rest : Reply -> Async (Completion R))
  : Async (Completion R) :=
  Await q (fun s =>
    match s with
    | Fulfilled reply => rest reply
    | Rejected => Return Thrown
    end).

Definition returns {R : Type} (r : R) : Async (Completion R) :=
  Return (Normal r).

Notation "'let*' x ':=' c 'in' rest" := (attempt c (fun x => rest))
  (at level 10, x pattern, c at level 100, rest at level 200).

(** [selectError && selectError.code !== "PGRST116"]. *)
Definition is_query_failure (selectError : option PostgrestError.t) : bool :=
  match selectError with
  | None => false
  | Some e => negb (jsstr_eqb (PostgrestError.code e) (js "PGRST116"))
  end.

(** The outer [catch (error)] block, the same in both handlers. *)
Definition catch_block : Async Response.t :=
  ConsoleError "Unexpected server error:"
    (Return (respond 500 false "An unexpected error occurred.")).

(** The pre-flight branch: [{ statusCode: 204, headers, body: "" }]. *)
Definition preflight : Response.t :=
  {| Response.statusCode := 204;
     Response.headers := cors_headers;
     Response.body := Empty |}.

(** ** The machine-bound handler *)

(** The handler is cut at its two [await]s: [handler] is the code up to the
    select query (steps 1 to 3), [validate] what follows that query (the
    error check of step 3 and step 4), and [activate] the first-time
    activation (steps 5 and 6). *)

Module MachineBound.

Definition activate (host : Host) (machineId : JsValue)
  (codeData : VerificationCode) : Async (Completion Response.t) :=
  await (UpdateById
           {| set_is_used := true;
              set_used_at := now host;
              set_machine_id := Some machineId |}
           (id codeData))
    (fun updated =>
       let updateError := error updated in
       match updateError with
       | Some _ =>
           ConsoleError "Supabase update error:"
             (returns (respond 500 false "Failed to activate code."))
       | None =>
           returns (respond 200 true "Application activated successfully.")
       end).

Definition validate (host : Host) (machineId : JsValue) (selected : Reply)
  : Async (Completion Response.t) :=
  let codeData := data selected in
  let selectError := error selected in
  if is_query_failure selectError then
    ConsoleError "Supabase select error:"
      (returns (respond 500 false "Database query failed."))
  else
    match codeData with
    | None => returns (respond 404 false "Invalid verification code.")
    | Some codeData =>
        if is_used codeData then
          if strict_equals (machine_id codeData) machineId then
            returns (respond 200 true "Verification successful.")
          else
            returns (respond 403 false
                       "This code has already been used on another computer.")
        else
          activate host machineId codeData
    end.

Definition handler (host : Host) (event : Event.t) : Async Response.t :=
  if jsstr_eqb (Event.httpMethod event) (js "OPTIONS") then
    Return preflight
  else if negb (jsstr_eqb (Event.httpMethod event) (js "POST")) then
    Return (respond 405 false "Method Not Allowed")
  else
    try_catch
      (let supabaseUrl := env (SUPABASE_URL host) in
       let supabaseAnonKey := env (SUPABASE_ANON_KEY host) in
       if negb (truthy supabaseUrl) || negb (truthy supabaseAnonKey) then
         ConsoleError "Supabase URL or Anon Key is not set."
           (returns (respond 500 false "Server configuration error."))
       else
         let* _ := createClient host supabaseUrl supabaseAnonKey in
         let* parsed := JSON_parse (Event.body event) in
         let* (code, machineId) := destructure parsed in
         if negb (truthy code) || negb (truthy machineId) then
           returns (respond 400 false
                      "Verification code and machine ID are required.")
         else
           let* trimmed := call_trim code in
           await (SelectSingle trimmed) (validate host machineId))
      catch_block.

End MachineBound.

(** ** The machine-unbound handler *)

Module MachineUnbound.

Definition activate (host : Host) (data : VerificationCode)
  : Async (Completion Response.t) :=
  await (UpdateById
           {| set_is_used := true;
              set_used_at := now host;
              set_machine_id := None |}
           (id data))
    (fun updated =>
       let updateError := error updated in
       match updateError with
       | Some _ =>
           ConsoleError "Supabase update error:"
             (returns (respond 500 false "Failed to update code status."))
       | None =>
           returns (respond 200 true
                      "Verification successful. Access granted.")
       end).

Definition validate (host : Host) (selected : Reply)
  : Async (Completion Response.t) :=
  let data := data selected in
  let selectError := error selected in
  if is_query_failure selectError then
    ConsoleError "Supabase select error:"
      (returns (respond 500 false "Database query failed."))
  else
    match data with
    | None =>
        returns (respond 404 false
                   "Invalid or already used verification code.")
    | Some data =>
        if is_used data then
          returns (respond 404 false
                     "Invalid or already used verification code.")
        else
          activate host data
    end.

Definition handler (host : Host) (event : Event.t) : Async Response.t :=
  if jsstr_eqb (Event.httpMethod event) (js "OPTIONS") then
    Return preflight
  else if negb (jsstr_eqb (Event.httpMethod event) (js "POST")) then
    Return (respond 405 false "Method Not Allowed")
  else
    try_catch
      (let supabaseUrl := env (SUPABASE_URL host) in
       let supabaseAnonKey := env (SUPABASE_ANON_KEY host) in
       if negb (truthy supabaseUrl) || negb (truthy supabaseAnonKey) then
         ConsoleError "Supabase URL or Anon Key is not set."
           (returns (respond 500 false "Server configuration error."))
       else
         let* _ := createClient host supabaseUrl supabaseAnonKey in
         let* parsed := JSON_parse (Event.body event) in
         let* (code, _) := destructure parsed in
         if negb (truthy code) || negb (is_string code) then
           returns (respond 400 false "Verification code is required.")
         else
           let* trimmed := call_trim code in
           if jsstr_eqb trimmed (js "") then
             returns (respond 400 false "Verification code is required.")
           else
             let* trimmed := call_trim code in
             await (SelectSingle trimmed) (validate host))
      catch_block.

End MachineUnbound.

(** ** Playing a handler against the store *)

(** [.select("*").eq("code", c).single()]: the one matching row, or the
    PostgREST error PGRST116 when no row, or more than one, matches. *)
Definition PGRST116 : PostgrestError.t :=
  {| PostgrestError.code := js "PGRST116" |}.

Definition select_single (c : JsString) (rows : Table) : Reply :=
  match filter (fun r => jsstr_eqb (code r) c) rows with
  | [r] => {| data := Some r; error := None |}
  | _ => {| data := None; error := Some PGRST116 |}
  end.

(** The client sends the values of an update as [JSON.stringify] writes
    them, so the store receives [v] as JSON carries it: an infinite number
    becomes [null]; in an array [undefined] becomes [null]; a member of an
    object that is [undefined] is left out. *)
Fixpoint as_json (v : JsValue) : JsValue :=
  match v with
  | JUndefined => JNull
  | JNum (Infinite _) => JNull
  | JArr elems => JArr (map as_json elems)
  | JObj props =>
      JObj (flat_map (fun '(key, x) =>
                        match x with
                        | JUndefined => []
                        | _ => [(key, as_json x)]
                        end) props)
  | _ => v
  end.

(** A column named in the update takes the value sent; [machine_id] is left
    as it was when the update does not name it, or names it with
    [undefined], which [JSON.stringify] leaves out. *)
Definition apply_patch (p : Patch) (r : VerificationCode) : VerificationCode :=
  {| id := id r;
     code := code r;
     is_used := set_is_used p;
     machine_id := match set_machine_id p with
                   | Some JUndefined | None => machine_id r
                   | Some v => as_json v
                   end;
     used_at := Some (set_used_at p) |}.

(** [.update(p).eq("id", i)]: every row whose id is [i] is patched. *)
Definition update_by_id (p : Patch) (i : Z) (rows : Table) : Table :=
  map (fun r => if Z.eqb (id r) i then apply_patch p r else r) rows.

(** What can go wrong with a query: the store reports an error in its reply,
    or the promise is rejected.  Either way the table is left as it was. *)
Inductive Fault :=
| Reports (e : PostgrestError.t)
| Throws.

Record Faults :=
  { select_fault : option Fault; update_fault : option Fault }.

Definition healthy : Faults :=
  {| select_fault := None; update_fault := None |}.

Definition faulted (f : Fault) : Settled :=
  match f with
  | Reports e => Fulfilled {| data := None; error := Some e |}
  | Throws => Rejected
  end.

Definition perform (F : Faults) (q : Query) (rows : Table) : Settled * Table :=
  match q with
  | SelectSingle c =>
      match select_fault F with
      | Some f => (faulted f, rows)
      | None => (Fulfilled (select_single c rows), rows)
      end
  | UpdateById p i =>
      match update_fault F with
      | Some f => (faulted f, rows)
      | None =>
          (Fulfilled {| data := None; error := None |}, update_by_id p i rows)
      end
  end.

(** One query of a handler as the store saw it. *)
Record Exchange := { query : Query; settled : Settled }.

Record Outcome :=
  { response : Response.t;
    table : Table;
    exchanges : list Exchange;
    console : list string }.

Fixpoint run (F : Faults) (p : Async Response.t) (rows : Table) : Outcome :=
  match p with
  | Return r =>
      {| response := r; table := rows; exchanges := []; console := [] |}
  | ConsoleError line next =>
      let o := run F next rows in
      {| response := response o; table := table o;
         exchanges := exchanges o; console := line :: console o |}
  | Await q resume =>
      let '(s, rows') := perform F q rows in
      let o := run F (resume s) rows' in
      {| response := response o; table := table o;
         exchanges := {| query := q; settled := s |} :: exchanges o;
         console := console o |}
  end.

(** A handler that returns without awaiting anything never reaches the
    store. *)
Fixpoint no_store_access {A : Type} (p : Async A) : Prop :=
  match p with
  | Return _ => True
  | ConsoleError _ next => no_store_access next
  | Await _ _ => False
  end.

(** ** Sequences of invocations *)

Inductive Variant := Bound | Unbound.

Definition handler_of (v : Variant) : Host -> Event.t -> Async Response.t :=
  match v with
  | Bound => MachineBound.handler
  | Unbound => MachineUnbound.handler
  end.

Record Invocation :=
  { variant : Variant; host : Host; faults : Faults; event : Event.t }.

Definition serve (i : Invocation) (rows : Table) : Outcome :=
  run (faults i) (handler_of (variant i) (host i) (event i)) rows.

(** The invocations are served one after the other; the result is the final
    table and every exchange with the store, in order. *)
Fixpoint replay (invocations : list Invocation) (rows : Table)
  : Table * list Exchange :=
  match invocations with
  | [] => (rows, [])
  | i :: rest =>
      let o := serve i rows in
      let '(final, later) := replay rest (table o) in
      (final, exchanges o ++ later)
  end.

(** The updates the store admitted. *)
Definition landed (x : Exchange) : option (Z * Patch) :=
  match query x, settled x with
  | UpdateById p i, Fulfilled {| data := _; error := None |} => Some (i, p)
  | _, _ => None
  end.

(** The outcome [o] has an admitted update of the row [i]. *)
Definition activates (i : Z) (o : Outcome) : bool :=
  existsb (fun x => match landed x with
                    | Some (j, _) => Z.eqb j i
                    | None => false
                    end) (exchanges o).

(** Every invocation with what it left, in the order served. *)
Fixpoint served (invocations : list Invocation) (rows : Table)
  : list (Invocation * Outcome) :=
  match invocations with
  | [] => []
  | i :: rest =>
      let o := serve i rows in
      (i, o) :: served rest (table o)
  end.

(** The invocation that performed the first activation of the row [i]: the
    first one served whose update of that row the store admitted. *)
Fixpoint first_activator (i : Z) (history : list (Invocation * Outcome))
  : option Invocation :=
  match history with
  | [] => None
  | (invocation, o) :: rest =>
      if activates i o then Some invocation else first_activator i rest
  end.

(** ** Two invocations in flight *)

(** The next query of a handler is performed and the handler resumed up to
    its following [await]. *)
Fixpoint advance (F : Faults) (p : Async Response.t) (rows : Table)
  : Async Response.t * Table * list Exchange :=
  match p with
  | Return r => (Return r, rows, [])
  | ConsoleError _ next => advance F next rows
  | Await q resume =>
      let '(s, rows') := perform F q rows in
      (resume s, rows', [{| query := q; settled := s |}])
  end.

Fixpoint returned (p : Async Response.t) : option Response.t :=
  match p with
  | Return r => Some r
  | ConsoleError _ next => returned next
  | Await _ _ => None
  end.

Inductive Turn := First | Second.

(** Two handlers share the table; the schedule says whose pending query the
    store serves next.  The result is both responses, the final table and the
    exchanges in the order the store served them, once both have returned. *)
Fixpoint race (schedule : list Turn) (a b : Async Response.t) (rows : Table)
  : option (Response.t * Response.t * Table * list Exchange) :=
  match schedule with
  | [] =>
      match returned a, returned b with
      | Some ra, Some rb => Some (ra, rb, rows, [])
      | _, _ => None
      end
  | First :: rest =>
      let '(a', rows', xs) := advance healthy a rows in
      match race rest a' b rows' with
      | Some (ra, rb, final, later) => Some (ra, rb, final, xs ++ later)
      | None => None
      end
  | Second :: rest =>
      let '(b', rows', xs) := advance healthy b rows in
      match race rest a b' rows' with
      | Some (ra, rb, final, later) => Some (ra, rb, final, xs ++ later)
      | None => None
      end
  end.

(** ** Vocabulary of the statements *)

(** The request is a POST. *)
Definition posted (event : Event.t) : Prop :=
  Event.httpMethod event = js "POST".

(** Both environment variables are set and the client can be built. *)
Definition ready (host : Host) : Prop :=
  truthy (env (SUPABASE_URL host)) = true
  /\ truthy (env (SUPABASE_ANON_KEY host)) = true
  /\ createClient_throws host = false.

(** The body parses, and destructures to these [code] and [machineId]. *)
Definition carries (event : Event.t) (code machineId : JsValue) : Prop :=
  exists v,
    Event.body event = Json v /\ destructure v = Normal (code, machineId).

(** A response is structured: its body is the stringified pair of a success
    flag and a message, the flag is set exactly on status 200, and the status
    is one of those the handlers name. *)
Definition structured (r : Response.t) : Prop :=
  exists message,
    Response.body r = Stringified (Z.eqb (Response.statusCode r) 200) message
    /\ In (Response.statusCode r) [200; 400; 403; 404; 405; 500].

(** The record [r] once activated at [instant] for [machine]. *)
Definition activated (r : VerificationCode) (instant : Z) (machine : JsValue)
  : VerificationCode :=
  {| id := id r; code := code r; is_used := true;
     machine_id := machine; used_at := Some instant |}.

(** [used_at] is set if and only if [is_used] is true. *)
Definition stamped (r : VerificationCode) : Prop :=
  used_at r <> None <-> is_used r = true.

(** A used record is bound to a machine. *)
Definition bound (r : VerificationCode) : Prop :=
  is_used r = true -> machine_id r <> JNull.

(** Whatever truthy [machineId] the request carries is a string, as the
    contract of the handler asks. *)
Definition string_machine (e : Event.t) : Prop :=
  forall code machineId,
    carries e code machineId -> truthy machineId = true ->
    is_string machineId = true.

(** No exchange of the list is an admitted update. *)
Definition quiet (xs : list Exchange) : Prop :=
  Forall (fun x => landed x = None) xs.

(** The update a first activation sends. *)
Definition activation (v : Variant) (instant : Z) (machineId : JsValue)
  : Patch :=
  {| set_is_used := true; set_used_at := instant;
     set_machine_id := match v with
                       | Bound => Some machineId
                       | Unbound => None
                       end |}.

(** An invocation either leaves the table alone and has no update admitted,
    or has exactly one update admitted: the activation of a record the
    lookup found unused. *)
Definition step_shape (v : Variant) (rows : Table) (o : Outcome) : Prop :=
  (table o = rows /\ quiet (exchanges o))
  \/ (exists r instant machineId before,
        In r rows /\ is_used r = false /\ truthy machineId = true
        /\ quiet before
        /\ table o = update_by_id (activation v instant machineId) (id r) rows
        /\ exchanges o =
             before ++
             [ {| query := UpdateById (activation v instant machineId) (id r);
                  settled := Fulfilled {| data := None; error := None |} |} ]).

(** ** Sample data *)

Definition sample_host : Host :=
  {| SUPABASE_URL := Some (js "https://project.supabase.co");
     SUPABASE_ANON_KEY := Some (js "anon-key");
     createClient_throws := false;
     now := 1700000000000 |}.

Definition post (v : JsValue) : Event.t :=
  {| Event.httpMethod := js "POST"; Event.body := Json v |}.

(** The body [{ code, machineId }]. *)
Definition request (code machineId : JsValue) : JsValue :=
  JObj [(js "code", code); (js "machineId", machineId)].

(** A record as provisioned: unused, bound to no machine. *)
Definition fresh (i : Z) (c : string) : VerificationCode :=
  {| id := i; code := js c; is_used := false;
     machine_id := JNull; used_at := None |}.

(** A record already activated by the machine [m]. *)
Definition taken (i : Z) (c m : string) : VerificationCode :=
  {| id := i; code := js c; is_used := true;
     machine_id := JStr (js m); used_at := Some 1600000000000 |}.

(** Invocations on the code K1 served by a store without faults: the
    machine-bound variant asked by the machines A and B, and the
    machine-unbound variant. *)
Definition bound_K1_A : Invocation :=
  {| variant := Bound; host := sample_host; faults := healthy;
     event := post (request (JStr (js "K1")) (JStr (js "machine-A"))) |}.

Definition bound_K1_B : Invocation :=
  {| variant := Bound; host := sample_host; faults := healthy;
     event := post (request (JStr (js "K1")) (JStr (js "machine-B"))) |}.

(** The machine-bound variant asked for K1 with the number [1e400] as
    [machineId], which [JSON.parse] reads as [Infinity]. *)
Definition bound_K1_overflow : Invocation :=
  {| variant := Bound; host := sample_host; faults := healthy;
     event := post (request (JStr (js "K1")) (JNum (Infinite false))) |}.

Definition unbound_K1 : Invocation :=
  {| variant := Unbound; host := sample_host; faults := healthy;
     event := post (JObj [(js "code", JStr (js "K1"))]) |}.

(** ** Vocabulary of the further statements *)

(** What follows the lookup, in either variant. *)
Definition validate_of (v : Variant) (host : Host) (machineId : JsValue)
  : Reply -> Async (Completion Response.t) :=
  match v with
  | Bound => MachineBound.validate host machineId
  | Unbound => MachineUnbound.validate host
  end.

(** The string [code] and the [machineId] pass the variant's validation: the
    machine-bound handler wants both truthy, the machine-unbound one a code
    that is not blank. *)
Definition passes (v : Variant) (c : JsString) (machineId : JsValue) : Prop :=
  match v with
  | Bound => c <> [] /\ truthy machineId = true
  | Unbound => trim c <> []
  end.

(** The [code] and [machineId] fail the variant's validation. *)
Definition refused (v : Variant) (code machineId : JsValue) : Prop :=
  match v with
  | Bound => truthy code = false \/ truthy machineId = false
  | Unbound =>
      is_string code = false \/ exists s, code = JStr s /\ trim s = []
  end.

(** The answer of each variant to a first activation. *)
Definition activation_done (v : Variant) : Response.t :=
  match v with
  | Bound => respond 200 true "Application activated successfully."
  | Unbound => respond 200 true "Verification successful. Access granted."
  end.

(** The message of a 500 answer after a failed query: the catch block's when
    the promise was rejected, the query's own when the store reported an
    error. *)
Definition failure_message (own : string) (f : Fault) : string :=
  match f with
  | Reports _ => own
  | Throws => "An unexpected error occurred."
  end.

(** The message each variant answers when the store reports that the update
    of a first activation failed. *)
Definition activation_failed (v : Variant) : string :=
  match v with
  | Bound => "Failed to activate code."
  | Unbound => "Failed to update code status."
  end.

Definition failure_line (own : string) (f : Fault) : string :=
  match f with
  | Reports _ => own
  | Throws => "Unexpected server error:"
  end.

(** A host whose access key is not set. *)
Definition keyless_host : Host :=
  {| SUPABASE_URL := Some (js "https://project.supabase.co");
     SUPABASE_ANON_KEY := None;
     createClient_throws := false;
     now := 1700000000000 |}.

(** The store answers every lookup with the error [42P01]. *)
Definition lookup_down : Faults :=
  {| select_fault := Some (Reports {| PostgrestError.code := js "42P01" |});
     update_fault := None |}.

(** The store rejects the promise of every update. *)
Definition update_down : Faults :=
  {| select_fault := None; update_fault := Some Throws |}.

(** Destructs what the goal branches on, outermost first. *)
Ltac branch :=
  match goal with
  | |- context [match ?x with _ => _ end] =>
      lazymatch x with
      | context [match _ with _ => _ end] => fail
      | _ => destruct x eqn:?
      end
  end.

(** * Properties *)

(** ** Strings and values *)

Lemma jsstr_eqb_eq (a b : JsString) : jsstr_eqb a b = true <-> a = b.
Proof.
  revert b; induction a as [|x a IH]; intros [|y b]; simpl;
    try (split; [discriminate | discriminate]); try tauto.
  rewrite andb_true_iff, N.eqb_eq, IH.
  split; [intros [-> ->]; reflexivity | intros E; inversion E; auto].
Qed.

Lemma jsstr_eqb_refl (a : JsString) : jsstr_eqb a a = true.
Proof. apply jsstr_eqb_eq; reflexivity. Qed.

Lemma jsstr_eqb_neq (a b : JsString) : a <> b -> jsstr_eqb a b = false.
Proof.
  intros N; destruct (jsstr_eqb a b) eqn:E; [|reflexivity].
  apply jsstr_eqb_eq in E; contradiction.
Qed.

(** Against a string held by the store, [===] is equality of strings. *)
Lemma strict_equals_string (s : JsString) (v : JsValue) :
  strict_equals (JStr s) v = true <-> v = JStr s.
Proof.
  destruct v; simpl; try (split; [discriminate | discriminate]).
  rewrite jsstr_eqb_eq; split; [intros -> | intros E; inversion E]; reflexivity.
Qed.

Lemma truthy_string (s : JsString) : truthy (JStr s) = true <-> s <> [].
Proof. destruct s; simpl; split; congruence. Qed.

Example trim_keeps_inner_space : trim (js "  a b  ") = js "a b".
Proof. reflexivity. Qed.

Example trim_drops_unicode_space :
  trim [65279; 160; 75; 49; 8233; 10]%N = js "K1".
Proof. reflexivity. Qed.

Example zero_width_space_stays : trim [8203; 75]%N = [8203; 75]%N.
Proof. reflexivity. Qed.

Example zero_is_falsy : truthy (JNum (Finite (0 # 5))) = false.
Proof. reflexivity. Qed.

Example last_member_wins :
  get (JObj [(js "code", JStr (js "a")); (js "code", JStr (js "b"))])
    (js "code") = JStr (js "b").
Proof. reflexivity. Qed.

Example primitives_have_no_code : destructure (JNum (Finite (5 # 1)))
                                  = Normal (JUndefined, JUndefined).
Proof. reflexivity. Qed.

Example infinity_is_sent_as_null :
  as_json (JArr [JNum (Infinite false); JStr (js "a"); JNum (Finite (5 # 1))])
  = JArr [JNull; JStr (js "a"); JNum (Finite (5 # 1))].
Proof. reflexivity. Qed.

Lemma trimStart_white (s : JsString) :
  forallb is_white_space s = true -> trimStart s = [].
Proof.
  induction s as [|c s IH]; simpl; [reflexivity|].
  rewrite andb_true_iff; intros [-> Hs]; auto.
Qed.

(** A string of white space only trims to the empty string. *)
Lemma trim_white (s : JsString) :
  forallb is_white_space s = true -> trim s = [].
Proof. intros H; unfold trim; rewrite (trimStart_white s H); reflexivity. Qed.

(** ** The handlers up to their first query *)

Lemma bound_prefix host event code machineId :
  posted event -> ready host -> carries event code machineId ->
  MachineBound.handler host event =
  try_catch
    (if negb (truthy code) || negb (truthy machineId) then
       returns (respond 400 false
                  "Verification code and machine ID are required.")
     else
       let* trimmed := call_trim code in
       await (SelectSingle trimmed) (MachineBound.validate host machineId))
    catch_block.
Proof.
  intros Hp (Hu & Hk & Hc) (v & Hb & Hd).
  unfold MachineBound.handler, createClient.
  rewrite Hp, Hu, Hk, Hc, Hb; simpl.
  rewrite Hd; reflexivity.
Qed.

Lemma unbound_prefix host event code machineId :
  posted event -> ready host -> carries event code machineId ->
  MachineUnbound.handler host event =
  try_catch
    (if negb (truthy code) || negb (is_string code) then
       returns (respond 400 false "Verification code is required.")
     else
       let* trimmed := call_trim code in
       if jsstr_eqb trimmed (js "") then
         returns (respond 400 false "Verification code is required.")
       else
         let* trimmed := call_trim code in
         await (SelectSingle trimmed) (MachineUnbound.validate host))
    catch_block.
Proof.
  intros Hp (Hu & Hk & Hc) (v & Hb & Hd).
  unfold MachineUnbound.handler, createClient.
  rewrite Hp, Hu, Hk, Hc, Hb; simpl.
  rewrite Hd; reflexivity.
Qed.

(** What [run] makes of a handler that returns before any query. *)
Lemma returned_no_store_access (p : Async Response.t) (r : Response.t) :
  returned p = Some r -> no_store_access p.
Proof.
  induction p as [a|line next IH|q resume IH]; simpl; auto; discriminate.
Qed.

Lemma returned_run (F : Faults) (p : Async Response.t) (r : Response.t)
  (rows : Table) :
  returned p = Some r ->
  response (run F p rows) = r /\ table (run F p rows) = rows
  /\ exchanges (run F p rows) = [].
Proof.
  induction p as [a|line next IH|q resume IH]; simpl.
  - intros E; inversion E; auto.
  - exact IH.
  - discriminate.
Qed.

(** ** Method gate *)

(** C9. Whatever the body, a request whose method is neither POST nor OPTIONS
    is answered 405 with [success = false], in both variants, by a handler
    that returns at once: the body is not parsed (it may be unparsable) and no
    query is awaited.  An OPTIONS request is answered with status 204 and an
    empty body, at once as well. *)
Theorem method_gate (v : Variant) (host : Host) (method : JsString)
  (body : RequestBody) :
  method <> js "POST" -> method <> js "OPTIONS" ->
  handler_of v host {| Event.httpMethod := method; Event.body := body |}
  = Return (respond 405 false "Method Not Allowed")
  /\ handler_of v host {| Event.httpMethod := js "OPTIONS"; Event.body := body |}
     = Return {| Response.statusCode := 204;
                 Response.headers := cors_headers;
                 Response.body := Empty |}.
Proof.
  intros Hpost Hopt.
  apply jsstr_eqb_neq in Hpost, Hopt.
  split; destruct v; unfold handler_of, MachineBound.handler,
    MachineUnbound.handler; cbn [Event.httpMethod].
  1,2: rewrite Hopt, Hpost; reflexivity.
  all: reflexivity.
Qed.

Lemma method_gate_witness :
  handler_of Bound sample_host
    {| Event.httpMethod := js "GET"; Event.body := Unparsable |}
  = Return (respond 405 false "Method Not Allowed")
  /\ handler_of Bound sample_host
       {| Event.httpMethod := js "OPTIONS"; Event.body := Unparsable |}
     = Return {| Response.statusCode := 204;
                 Response.headers := cors_headers;
                 Response.body := Empty |}.
Proof. apply method_gate; discriminate. Defined.

(** ** Input validation *)

(** C6. A POST whose body lacks [code], or carries the empty string as
    [code], is answered 400 with [success = false] by both variants, and so
    is, by the machine-bound variant, a POST that lacks [machineId]; the
    handler returns before awaiting any query. *)
Theorem missing_input_is_400 (host : Host) (event : Event.t)
  (code machineId : JsValue) :
  posted event -> ready host -> carries event code machineId ->
  (code = JUndefined \/ code = JStr (js "") ->
   MachineUnbound.handler host event
   = Return (respond 400 false "Verification code is required."))
  /\ (code = JUndefined \/ code = JStr (js "") \/ machineId = JUndefined ->
      MachineBound.handler host event
      = Return (respond 400 false
                  "Verification code and machine ID are required.")).
Proof.
  intros Hp Hr Hc; split; intros H.
  - rewrite (unbound_prefix _ _ _ _ Hp Hr Hc).
    destruct H as [-> | ->]; reflexivity.
  - rewrite (bound_prefix _ _ _ _ Hp Hr Hc).
    destruct H as [-> | [-> | ->]]; try reflexivity.
    rewrite orb_true_r; reflexivity.
Qed.

Lemma missing_input_is_400_witness :
  MachineUnbound.handler sample_host (post (JObj []))
  = Return (respond 400 false "Verification code is required.")
  /\ MachineBound.handler sample_host (post (JObj []))
     = Return (respond 400 false
                 "Verification code and machine ID are required.").
Proof.
  assert (Hp : posted (post (JObj []))) by reflexivity.
  assert (Hr : ready sample_host) by (repeat split).
  assert (Hc : carries (post (JObj [])) JUndefined JUndefined)
    by (exists (JObj []); split; reflexivity).
  destruct (missing_input_is_400 _ _ _ _ Hp Hr Hc) as [U B].
  split; [apply U | apply B]; left; reflexivity.
Defined.

(** C10. In the machine-bound variant, every truthy [code] that is not a
    string (a JSON number, say) passes the validation beside a truthy
    [machineId]; [code.trim()] then throws and the handler answers 500, not
    400, without having queried the store.  A non-empty string [code] passes
    whatever it holds, so that the handler awaits the lookup of its trimmed
    value, the empty string when it is white space only; the same holds
    beside any non-empty [machineId], white space included. *)
Theorem unchecked_code_reaches_trim (host : Host) (event : Event.t)
  (code machineId : JsValue) :
  posted event -> ready host -> carries event code machineId ->
  truthy machineId = true ->
  (truthy code = true -> is_string code = false ->
   returned (MachineBound.handler host event)
   = Some (respond 500 false "An unexpected error occurred."))
  /\ (forall s, code = JStr s -> s <> [] ->
      (exists resume,
         MachineBound.handler host event = Await (SelectSingle (trim s)) resume)
      /\ (forallb is_white_space s = true -> trim s = js "")).
Proof.
  intros Hp Hr Hc Hm.
  rewrite (bound_prefix _ _ _ _ Hp Hr Hc), Hm.
  split.
  - intros Ht Hs; rewrite Ht; simpl.
    destruct code; try discriminate Hs; reflexivity.
  - intros s -> Hs; split; [|apply trim_white].
    destruct s as [|c s]; [congruence|].
    eexists; reflexivity.
Qed.

Lemma unchecked_code_reaches_trim_witness :
  returned (MachineBound.handler sample_host
              (post (request (JNum (Finite (5 # 1))) (JStr (js " ")))))
  = Some (respond 500 false "An unexpected error occurred.")
  /\ (exists resume,
        MachineBound.handler sample_host
          (post (request (JStr (js "  ")) (JStr (js " "))))
        = Await (SelectSingle (trim (js "  "))) resume)
  /\ trim (js "  ") = js "".
Proof.
  assert (Hr : ready sample_host) by (repeat split).
  split.
  - refine (proj1 (unchecked_code_reaches_trim sample_host
                     (post (request (JNum (Finite (5 # 1))) (JStr (js " "))))
                     (JNum (Finite (5 # 1))) (JStr (js " "))
                     eq_refl Hr _ eq_refl) eq_refl eq_refl).
    eexists; split; reflexivity.
  - refine ((fun H => conj (proj1 H) (proj2 H eq_refl))
              (proj2 (unchecked_code_reaches_trim sample_host
                        (post (request (JStr (js "  ")) (JStr (js " "))))
                        (JStr (js "  ")) (JStr (js " "))
                        eq_refl Hr _ eq_refl) (js "  ") eq_refl _)).
    + eexists; split; reflexivity.
    + discriminate.
Defined.

(** ** Faults end at the handler boundary *)

Lemma structured_respond (status : Z) (message : string) :
  In status [400; 403; 404; 405; 500] ->
  structured (respond status false message).
Proof.
  intros H; exists message; split; [|simpl in *; tauto].
  simpl in H; simpl.
  destruct H as [<-|[<-|[<-|[<-|[<-|[]]]]]]; reflexivity.
Qed.

Lemma structured_success (message : string) :
  structured (respond 200 true message).
Proof. exists message; simpl; auto. Qed.

Create HintDb handlers.
#[local] Hint Resolve structured_success : handlers.
#[local] Hint Extern 1 (structured (respond _ false _)) =>
  (apply structured_respond; simpl; tauto) : handlers.

Lemma bound_validate_structured host machineId F selected rows :
  structured
    (response (run F (try_catch (MachineBound.validate host machineId selected)
                        catch_block) rows)).
Proof.
  unfold MachineBound.validate, MachineBound.activate, perform, faulted.
  destruct selected as [d e]; simpl.
  repeat (branch; simpl); auto with handlers.
Qed.

Lemma unbound_validate_structured host F selected rows :
  structured
    (response (run F (try_catch (MachineUnbound.validate host selected)
                        catch_block) rows)).
Proof.
  unfold MachineUnbound.validate, MachineUnbound.activate, perform, faulted.
  destruct selected as [d e]; simpl.
  repeat (branch; simpl); auto with handlers.
Qed.

Lemma run_structured (v : Variant) (host : Host) (F : Faults)
  (event : Event.t) (rows : Table) :
  Event.httpMethod event <> js "OPTIONS" ->
  structured (response (run F (handler_of v host event) rows)).
Proof.
  intros Hopt; apply jsstr_eqb_neq in Hopt.
  destruct v; unfold handler_of, MachineBound.handler, MachineUnbound.handler;
    rewrite Hopt.
  - destruct (jsstr_eqb (Event.httpMethod event) (js "POST"));
      simpl; auto with handlers.
    destruct (negb _ || negb _); simpl; auto with handlers.
    unfold createClient; destruct (createClient_throws host);
      simpl; auto with handlers.
    destruct (Event.body event) as [|parsed]; simpl; auto with handlers.
    destruct (destructure parsed) as [[code machineId]|];
      simpl; auto with handlers.
    destruct (negb _ || negb _); simpl; auto with handlers.
    destruct (call_trim code) as [trimmed|]; simpl; auto with handlers.
    unfold perform, faulted.
    destruct (select_fault F) as [[e|]|]; simpl; auto with handlers;
      apply bound_validate_structured.
  - destruct (jsstr_eqb (Event.httpMethod event) (js "POST"));
      simpl; auto with handlers.
    destruct (negb _ || negb _); simpl; auto with handlers.
    unfold createClient; destruct (createClient_throws host);
      simpl; auto with handlers.
    destruct (Event.body event) as [|parsed]; simpl; auto with handlers.
    destruct (destructure parsed) as [[code machineId]|];
      simpl; auto with handlers.
    destruct (negb _ || negb _); simpl; auto with handlers.
    destruct (call_trim code) as [trimmed|]; simpl; auto with handlers.
    destruct (jsstr_eqb trimmed (js "")); simpl; auto with handlers.
    unfold perform, faulted.
    destruct (select_fault F) as [[e|]|]; simpl; auto with handlers;
      apply unbound_validate_structured.
Qed.

(** C7, as the claim has it, fails: a POST whose body does not parse is
    answered 500, which is no 4xx status. *)
Lemma malformed_body_is_500 :
  exists r,
    returned (MachineBound.handler sample_host
                {| Event.httpMethod := js "POST"; Event.body := Unparsable |})
    = Some r
    /\ Response.statusCode r = 500
    /\ ~ (400 <= Response.statusCode r <= 499).
Proof.
  eexists; split; [reflexivity|]; simpl; split; [reflexivity | lia].
Qed.

(** C7, amended. A POST whose body does not parse, or parses to [null], is
    answered 500 with [success = false] by a handler that awaits no query;
    with the store credentials in place the message is the generic one of the
    [catch] block.  Whatever the request, the host and the faults of the
    store, every invocation other than a pre-flight ends in a structured
    response: a success flag and a message, the flag set exactly on status
    200. *)
Theorem faults_become_responses (v : Variant) (host : Host)
  (event : Event.t) :
  Event.httpMethod event <> js "OPTIONS" ->
  (posted event ->
   Event.body event = Unparsable \/ Event.body event = Json JNull ->
   exists message,
     returned (handler_of v host event) = Some (respond 500 false message)
     /\ (ready host -> message = "An unexpected error occurred."))
  /\ (forall F rows,
        structured (response (run F (handler_of v host event) rows))).
Proof.
  intros Hopt; split; [|intros F rows; apply run_structured; exact Hopt].
  intros Hp Hb.
  destruct v; unfold handler_of, MachineBound.handler, MachineUnbound.handler,
    createClient; rewrite Hp; simpl.
  all: destruct (negb _ || negb _) eqn:Henv; simpl.
  all: try (eexists; split; [reflexivity|];
            intros (Hu & Hk & _); rewrite Hu, Hk in Henv; discriminate).
  all: destruct (createClient_throws host); simpl;
    [eexists; split; [reflexivity | reflexivity]|].
  all: destruct Hb as [-> | ->]; simpl; eexists; split; reflexivity.
Qed.

Lemma faults_become_responses_witness :
  (exists message,
     returned (handler_of Unbound sample_host
                 {| Event.httpMethod := js "POST"; Event.body := Unparsable |})
     = Some (respond 500 false message)
     /\ message = "An unexpected error occurred.")
  /\ structured
       (response (run healthy
                    (handler_of Unbound sample_host
                       {| Event.httpMethod := js "POST";
                          Event.body := Unparsable |})
                    [fresh 1 "K1"])).
Proof.
  assert (Hopt : Event.httpMethod
                   {| Event.httpMethod := js "POST"; Event.body := Unparsable |}
                 <> js "OPTIONS") by discriminate.
  destruct (faults_become_responses Unbound sample_host _ Hopt) as [Hbody Hall].
  split; [|apply Hall].
  destruct (Hbody eq_refl (or_introl eq_refl)) as (message & Hret & Hmsg).
  exists message; split; [exact Hret | apply Hmsg; repeat split].
Defined.

(** ** The store *)

Lemma filter_code_none (c : JsString) (rows : Table) :
  (forall r, In r rows -> code r <> c) ->
  filter (fun r => jsstr_eqb (code r) c) rows = [].
Proof.
  induction rows as [|a rows IH]; simpl; intros H; [reflexivity|].
  rewrite (jsstr_eqb_neq (code a) c) by (apply H; auto).
  apply IH; intros r Hr; apply H; auto.
Qed.

Lemma filter_code_unique (r : VerificationCode) (rows : Table) :
  NoDup (map code rows) -> In r rows ->
  filter (fun x => jsstr_eqb (code x) (code r)) rows = [r].
Proof.
  induction rows as [|a rows IH]; simpl; intros Hnd Hin; [contradiction|].
  inversion Hnd as [|? ? Hfresh Hrest]; subst.
  destruct Hin as [-> | Hin].
  - rewrite jsstr_eqb_refl; f_equal.
    apply filter_code_none; intros x Hx E.
    apply Hfresh; rewrite <- E; apply in_map; exact Hx.
  - rewrite jsstr_eqb_neq; [auto|].
    intros E; apply Hfresh; rewrite E; apply in_map; exact Hin.
Qed.

(** With unique codes, the lookup of a record's code finds that record. *)
Lemma select_single_found (r : VerificationCode) (rows : Table) :
  NoDup (map code rows) -> In r rows ->
  select_single (code r) rows = {| data := Some r; error := None |}.
Proof.
  intros Hnd Hin; unfold select_single.
  rewrite (filter_code_unique r rows Hnd Hin); reflexivity.
Qed.

(** The lookup of a code no record has reports "no rows". *)
Lemma select_single_none (c : JsString) (rows : Table) :
  (forall r, In r rows -> code r <> c) ->
  select_single c rows = {| data := None; error := Some PGRST116 |}.
Proof.
  intros H; unfold select_single; rewrite (filter_code_none c rows H).
  reflexivity.
Qed.

(** What the lookup hands back is a record of the table with that code. *)
Lemma select_single_data (c : JsString) (rows : Table) (r : VerificationCode) :
  data (select_single c rows) = Some r -> In r rows /\ code r = c.
Proof.
  unfold select_single.
  destruct (filter _ rows) as [|x [|y l]] eqn:E; simpl; try discriminate.
  intros H; inversion H; subst x.
  assert (Hin : In r (filter (fun r => jsstr_eqb (code r) c) rows))
    by (rewrite E; left; reflexivity).
  apply filter_In in Hin; destruct Hin as [Hin Hc].
  apply jsstr_eqb_eq in Hc; auto.
Qed.

Lemma update_by_id_in (p : Patch) (r : VerificationCode) (rows : Table) :
  In r rows -> In (apply_patch p r) (update_by_id p (id r) rows).
Proof.
  intros Hin; unfold update_by_id.
  apply in_map_iff; exists r; rewrite Z.eqb_refl; auto.
Qed.

Lemma update_by_id_other (p : Patch) (i : Z) (x : VerificationCode)
  (rows : Table) :
  In x rows -> id x <> i -> In x (update_by_id p i rows).
Proof.
  intros Hin Hid; unfold update_by_id.
  apply in_map_iff; exists x; apply Z.eqb_neq in Hid; rewrite Hid; auto.
Qed.

(** ** The machine-bound handler past its lookup *)

Lemma bound_lookup host event c machineId :
  posted event -> ready host -> carries event (JStr c) machineId ->
  c <> [] -> truthy machineId = true ->
  MachineBound.handler host event =
  try_catch (await (SelectSingle (trim c))
               (MachineBound.validate host machineId)) catch_block.
Proof.
  intros Hp Hr Hc Hne Hm.
  rewrite (bound_prefix _ _ _ _ Hp Hr Hc), Hm.
  destruct c; [congruence | reflexivity].
Qed.

Lemma unbound_lookup host event c machineId :
  posted event -> ready host -> carries event (JStr c) machineId ->
  trim c <> [] ->
  MachineUnbound.handler host event =
  try_catch (await (SelectSingle (trim c))
               (MachineUnbound.validate host)) catch_block.
Proof.
  intros Hp Hr Hc Hne.
  rewrite (unbound_prefix _ _ _ _ Hp Hr Hc).
  assert (Hc' : c <> []) by (intros ->; apply Hne; reflexivity).
  destruct c as [|x c]; [congruence|].
  cbn [truthy is_string negb orb call_trim attempt].
  rewrite (jsstr_eqb_neq _ (js "") Hne); reflexivity.
Qed.

(** ** First activation *)

(** C1. In the machine-bound variant, a POST from a configured host whose
    trimmed [code] is that of an unused record and whose [machineId] is a
    non-empty string, served by a store without faults, makes exactly two
    queries, the lookup and one update keyed by the record's id that sets
    [is_used] to true, [used_at] to the current instant and [machine_id] to
    the submitted [machineId]; the answer is 200 with [success = true], the
    record is activated and the records of other ids stay as they were. *)
Theorem first_activation_succeeds (host : Host) (F : Faults) (event : Event.t)
  (c m : JsString) (rows : Table) (r : VerificationCode) :
  posted event -> ready host -> carries event (JStr c) (JStr m) ->
  c <> [] -> m <> [] ->
  select_fault F = None -> update_fault F = None ->
  NoDup (map code rows) -> In r rows -> code r = trim c ->
  is_used r = false ->
  let o := run F (MachineBound.handler host event) rows in
  let patch := {| set_is_used := true; set_used_at := now host;
                  set_machine_id := Some (JStr m) |} in
  response o = respond 200 true "Application activated successfully."
  /\ exchanges o =
       [ {| query := SelectSingle (trim c);
            settled := Fulfilled {| data := Some r; error := None |} |};
         {| query := UpdateById patch (id r);
            settled := Fulfilled {| data := None; error := None |} |} ]
  /\ table o = update_by_id patch (id r) rows
  /\ In (activated r (now host) (JStr m)) (table o)
  /\ (forall x, In x rows -> id x <> id r -> In x (table o)).
Proof.
  intros Hp Hr Hc Hne Hm Hsel Hupd Hnd Hin Hcode Hunused o patch.
  apply truthy_string in Hm.
  assert (Ho : o = {| response :=
                        respond 200 true "Application activated successfully.";
                      table := update_by_id patch (id r) rows;
                      exchanges :=
                        [ {| query := SelectSingle (trim c);
                             settled := Fulfilled {| data := Some r;
                                                     error := None |} |};
                          {| query := UpdateById patch (id r);
                             settled := Fulfilled {| data := None;
                                                     error := None |} |} ];
                      console := [] |}).
  { subst o; rewrite (bound_lookup _ _ _ _ Hp Hr Hc Hne Hm).
    cbn [await try_catch run perform]; rewrite Hsel, <- Hcode.
    rewrite (select_single_found r rows Hnd Hin).
    unfold MachineBound.validate, MachineBound.activate.
    cbn [data error is_query_failure]; rewrite Hunused.
    cbn [await try_catch run perform]; rewrite Hupd; reflexivity. }
  rewrite Ho; cbn [response table exchanges].
  repeat split.
  - replace (activated r (now host) (JStr m)) with (apply_patch patch r)
      by reflexivity.
    apply update_by_id_in; exact Hin.
  - intros x Hx Hid; apply update_by_id_other; assumption.
Qed.

Lemma first_activation_succeeds_witness :
  let o := run healthy
             (MachineBound.handler sample_host
                (post (request (JStr (js " K1 ")) (JStr (js "machine-A")))))
             [fresh 1 "K1"; fresh 2 "K2"] in
  response o = respond 200 true "Application activated successfully."
  /\ In (activated (fresh 1 "K1") (now sample_host) (JStr (js "machine-A")))
        (table o).
Proof.
  pose proof (first_activation_succeeds sample_host healthy
                (post (request (JStr (js " K1 ")) (JStr (js "machine-A"))))
                (js " K1 ") (js "machine-A")
                [fresh 1 "K1"; fresh 2 "K2"] (fresh 1 "K1")) as H.
  cbv zeta in H |- *.
  refine ((fun H' => conj (proj1 H') (proj1 (proj2 (proj2 (proj2 H')))))
            (H _ _ _ _ _ _ _ _ _ _ _)); try reflexivity.
  - repeat split.
  - eexists; split; reflexivity.
  - discriminate.
  - discriminate.
  - repeat constructor; simpl; intuition discriminate.
  - left; reflexivity.
Defined.

(** ** Re-verification and rejection *)

(** C3. In the machine-bound variant, a POST whose trimmed [code] is that of
    a used record bound to the submitted [machineId] is answered 200 with
    [success = true]; the lookup is the only query, no update is issued and
    the table is left as it was. *)
Theorem same_machine_reverifies (host : Host) (F : Faults) (event : Event.t)
  (c m : JsString) (rows : Table) (r : VerificationCode) :
  posted event -> ready host -> carries event (JStr c) (JStr m) ->
  c <> [] -> m <> [] ->
  select_fault F = None ->
  NoDup (map code rows) -> In r rows -> code r = trim c ->
  is_used r = true -> machine_id r = JStr m ->
  run F (MachineBound.handler host event) rows
  = {| response := respond 200 true "Verification successful.";
       table := rows;
       exchanges :=
         [ {| query := SelectSingle (trim c);
              settled := Fulfilled {| data := Some r; error := None |} |} ];
       console := [] |}.
Proof.
  intros Hp Hr Hc Hne Hm Hsel Hnd Hin Hcode Hused Hmachine.
  apply truthy_string in Hm.
  rewrite (bound_lookup _ _ _ _ Hp Hr Hc Hne Hm).
  cbn [await try_catch run perform]; rewrite Hsel, <- Hcode.
  rewrite (select_single_found r rows Hnd Hin).
  unfold MachineBound.validate.
  cbn [data error is_query_failure]; rewrite Hused, Hmachine.
  rewrite (proj2 (strict_equals_string m (JStr m)) eq_refl); reflexivity.
Qed.

Lemma same_machine_reverifies_witness :
  run healthy
    (MachineBound.handler sample_host
       (post (request (JStr (js "K1")) (JStr (js "machine-A")))))
    [taken 1 "K1" "machine-A"; fresh 2 "K2"]
  = {| response := respond 200 true "Verification successful.";
       table := [taken 1 "K1" "machine-A"; fresh 2 "K2"];
       exchanges :=
         [ {| query := SelectSingle (trim (js "K1"));
              settled := Fulfilled {| data := Some (taken 1 "K1" "machine-A");
                                      error := None |} |} ];
       console := [] |}.
Proof.
  apply (same_machine_reverifies sample_host healthy _ (js "K1")
           (js "machine-A")); try reflexivity.
  - repeat split.
  - eexists; split; reflexivity.
  - discriminate.
  - discriminate.
  - repeat constructor; simpl; intuition discriminate.
  - left; reflexivity.
Defined.

(** C4. A POST whose trimmed [code] is that of a used record leaves the table
    as it was and issues no update.  The machine-bound variant answers 403
    with [success = false] when the record is bound to a machine other than
    the submitted [machineId]; the machine-unbound variant answers 404
    whatever [machineId] the request carries. *)
Theorem used_code_is_rejected (host : Host) (F : Faults) (c : JsString)
  (rows : Table) (r : VerificationCode) :
  ready host -> select_fault F = None ->
  NoDup (map code rows) -> In r rows -> code r = trim c -> code r <> [] ->
  is_used r = true ->
  let lookup := {| query := SelectSingle (trim c);
                   settled := Fulfilled {| data := Some r; error := None |} |} in
  (forall event owner machineId,
     posted event -> carries event (JStr c) machineId ->
     truthy machineId = true ->
     machine_id r = JStr owner -> machineId <> JStr owner ->
     run F (MachineBound.handler host event) rows
     = {| response :=
            respond 403 false
              "This code has already been used on another computer.";
          table := rows; exchanges := [lookup]; console := [] |})
  /\ (forall event machineId,
        posted event -> carries event (JStr c) machineId ->
        run F (MachineUnbound.handler host event) rows
        = {| response :=
               respond 404 false "Invalid or already used verification code.";
             table := rows; exchanges := [lookup]; console := [] |}).
Proof.
  intros Hr Hsel Hnd Hin Hcode Hne Hused lookup; subst lookup.
  assert (Hc0 : c <> []) by (intros ->; apply Hne; rewrite Hcode; reflexivity).
  split.
  - intros event owner machineId Hp Hc Hm Hown Hother.
    rewrite (bound_lookup _ _ _ _ Hp Hr Hc Hc0 Hm).
    cbn [await try_catch run perform]; rewrite Hsel, <- Hcode.
    rewrite (select_single_found r rows Hnd Hin).
    unfold MachineBound.validate.
    cbn [data error is_query_failure]; rewrite Hused, Hown.
    destruct (strict_equals (JStr owner) machineId) eqn:E; [|reflexivity].
    apply strict_equals_string in E; contradiction.
  - intros event machineId Hp Hc.
    rewrite Hcode in Hne.
    rewrite (unbound_lookup _ _ _ _ Hp Hr Hc Hne).
    cbn [await try_catch run perform]; rewrite Hsel, <- Hcode.
    rewrite (select_single_found r rows Hnd Hin).
    unfold MachineUnbound.validate.
    cbn [data error is_query_failure]; rewrite Hused; reflexivity.
Qed.

Lemma used_code_is_rejected_witness :
  Response.statusCode
    (response (run healthy
                 (MachineBound.handler sample_host
                    (post (request (JStr (js "K1")) (JStr (js "machine-B")))))
                 [taken 1 "K1" "machine-A"])) = 403
  /\ Response.statusCode
       (response (run healthy
                    (MachineUnbound.handler sample_host
                       (post (request (JStr (js "K1")) (JStr (js "machine-A")))))
                    [taken 1 "K1" "machine-A"])) = 404.
Proof.
  assert (Hr : ready sample_host) by (repeat split).
  assert (Hnd : NoDup (map code [taken 1 "K1" "machine-A"]))
    by (repeat constructor; simpl; tauto).
  assert (Hin : In (taken 1 "K1" "machine-A") [taken 1 "K1" "machine-A"])
    by (left; reflexivity).
  assert (Hne : code (taken 1 "K1" "machine-A") <> []) by discriminate.
  destruct (used_code_is_rejected sample_host healthy (js "K1")
              [taken 1 "K1" "machine-A"] (taken 1 "K1" "machine-A")
              Hr eq_refl Hnd Hin eq_refl Hne eq_refl) as [B U].
  split.
  - rewrite (B _ (js "machine-A") (JStr (js "machine-B")));
      try reflexivity; try discriminate.
    eexists; split; reflexivity.
  - rewrite (U _ (JStr (js "machine-A"))); try reflexivity.
    eexists; split; reflexivity.
Defined.

(** C5. A POST whose trimmed [code] no record of the table has is answered
    404 with [success = false] by both variants: the store reports "no rows"
    (PGRST116), the handlers take it for an unknown code and log no failure,
    the lookup is the only query and the table is left as it was. *)
Theorem unknown_code_is_404 (host : Host) (F : Faults) (event : Event.t)
  (c : JsString) (machineId : JsValue) (rows : Table) :
  posted event -> ready host -> carries event (JStr c) machineId ->
  select_fault F = None ->
  (forall r, In r rows -> code r <> trim c) ->
  let lookup := {| query := SelectSingle (trim c);
                   settled := Fulfilled {| data := None;
                                           error := Some PGRST116 |} |} in
  (c <> [] -> truthy machineId = true ->
   run F (MachineBound.handler host event) rows
   = {| response := respond 404 false "Invalid verification code.";
        table := rows; exchanges := [lookup]; console := [] |})
  /\ (trim c <> [] ->
      run F (MachineUnbound.handler host event) rows
      = {| response :=
             respond 404 false "Invalid or already used verification code.";
           table := rows; exchanges := [lookup]; console := [] |}).
Proof.
  intros Hp Hr Hc Hsel Hnone lookup; subst lookup; split.
  - intros Hne Hm.
    rewrite (bound_lookup _ _ _ _ Hp Hr Hc Hne Hm).
    cbn [await try_catch run perform]; rewrite Hsel.
    rewrite (select_single_none _ rows Hnone); reflexivity.
  - intros Hne.
    rewrite (unbound_lookup _ _ _ _ Hp Hr Hc Hne).
    cbn [await try_catch run perform]; rewrite Hsel.
    rewrite (select_single_none _ rows Hnone); reflexivity.
Qed.

Lemma unknown_code_is_404_witness :
  Response.statusCode
    (response (run healthy
                 (MachineBound.handler sample_host
                    (post (request (JStr (js "K9")) (JStr (js "machine-A")))))
                 [fresh 1 "K1"])) = 404
  /\ Response.statusCode
       (response (run healthy
                    (MachineUnbound.handler sample_host
                       (post (request (JStr (js "K9")) (JStr (js "machine-A")))))
                    [fresh 1 "K1"])) = 404.
Proof.
  assert (Hr : ready sample_host) by (repeat split).
  assert (Hc : carries (post (request (JStr (js "K9")) (JStr (js "machine-A"))))
                 (JStr (js "K9")) (JStr (js "machine-A")))
    by (eexists; split; reflexivity).
  assert (Hnone : forall r, In r [fresh 1 "K1"] -> code r <> trim (js "K9"))
    by (intros r [<- | []]; discriminate).
  destruct (unknown_code_is_404 sample_host healthy
              (post (request (JStr (js "K9")) (JStr (js "machine-A"))))
              (js "K9") (JStr (js "machine-A")) [fresh 1 "K1"]
              eq_refl Hr Hc eq_refl Hnone) as [B U].
  split.
  - rewrite B; [reflexivity | discriminate | reflexivity].
  - rewrite U; [reflexivity | discriminate].
Defined.

(** ** One invocation, as the table sees it *)

Lemma quiet_nil : quiet [].
Proof. constructor. Qed.

Lemma quiet_select (c : JsString) (s : Settled) :
  quiet [ {| query := SelectSingle c; settled := s |} ].
Proof. constructor; [reflexivity | constructor]. Qed.

#[local] Hint Resolve quiet_nil quiet_select : handlers.

Lemma bound_validate_step host machineId F selected rows :
  (forall r, data selected = Some r -> In r rows) ->
  truthy machineId = true ->
  step_shape Bound rows
    (run F (try_catch (MachineBound.validate host machineId selected)
              catch_block) rows).
Proof.
  intros Hdata Hm.
  unfold MachineBound.validate, MachineBound.activate, perform.
  destruct selected as [d e]; simpl in *.
  destruct (is_query_failure e); simpl; [left; auto with handlers|].
  destruct d as [r|]; simpl; [|left; auto with handlers].
  destruct (is_used r) eqn:Hused; simpl.
  - destruct (strict_equals _ _); simpl; left; auto with handlers.
  - destruct (update_fault F) as [[e0|]|]; simpl.
    + left; split; [reflexivity | repeat constructor].
    + left; split; [reflexivity | repeat constructor].
    + right; exists r, (now host), machineId, []; auto 10 with handlers.
Qed.

Lemma unbound_validate_step host F selected rows :
  (forall r, data selected = Some r -> In r rows) ->
  step_shape Unbound rows
    (run F (try_catch (MachineUnbound.validate host selected)
              catch_block) rows).
Proof.
  intros Hdata.
  unfold MachineUnbound.validate, MachineUnbound.activate, perform.
  destruct selected as [d e]; simpl in *.
  destruct (is_query_failure e); simpl; [left; auto with handlers|].
  destruct d as [r|]; simpl; [|left; auto with handlers].
  destruct (is_used r) eqn:Hused; simpl; [left; auto with handlers|].
  destruct (update_fault F) as [[e0|]|]; simpl.
  - left; split; [reflexivity | repeat constructor].
  - left; split; [reflexivity | repeat constructor].
  - right; exists r, (now host), (JBool true), []; auto 10 with handlers.
Qed.

(** The lookup goes first: what follows it is shifted by one exchange. *)
Lemma step_shape_after_lookup (v : Variant) (rows : Table) (c : JsString)
  (s : Settled) (o : Outcome) :
  step_shape v rows o ->
  step_shape v rows
    {| response := response o; table := table o;
       exchanges := {| query := SelectSingle c; settled := s |} :: exchanges o;
       console := console o |}.
Proof.
  intros [[Ht Hq] | (r & instant & m & before & Hin & Hu & Hm & Hq & Ht & Hx)].
  - left; split; [exact Ht|]; constructor; [reflexivity | exact Hq].
  - right; exists r, instant, m,
      ({| query := SelectSingle c; settled := s |} :: before).
    simpl; rewrite Hx; repeat split; auto.
    constructor; [reflexivity | exact Hq].
Qed.

Lemma serve_step (i : Invocation) (rows : Table) :
  step_shape (variant i) rows (serve i rows).
Proof.
  destruct i as [v host F event]; unfold serve; simpl.
  assert (Hidle : forall r : Response.t,
             step_shape v rows (run F (Return r) rows))
    by (intros r; left; simpl; auto with handlers).
  assert (Hlogged : forall (line : string) (r : Response.t),
             step_shape v rows (run F (ConsoleError line (Return r)) rows))
    by (intros line r; left; simpl; auto with handlers).
  destruct v; unfold handler_of, MachineBound.handler, MachineUnbound.handler.
  - destruct (jsstr_eqb (Event.httpMethod event) (js "OPTIONS")); [apply Hidle|].
    destruct (jsstr_eqb (Event.httpMethod event) (js "POST"));
      simpl negb; cbv iota; [|apply Hidle].
    destruct (negb _ || negb _); [apply Hlogged|].
    unfold createClient; destruct (createClient_throws host);
      [apply Hlogged|].
    destruct (Event.body event) as [|parsed]; [apply Hlogged|].
    cbn [JSON_parse attempt].
    destruct (destructure parsed) as [[code machineId]|]; [|apply Hlogged].
    cbn [attempt].
    destruct (truthy code); [|apply Hidle].
    destruct (truthy machineId) eqn:Hm; [|apply Hidle].
    cbn [negb orb].
    destruct (call_trim code) as [trimmed|]; [|apply Hlogged].
    cbn [attempt await try_catch run perform].
    destruct (select_fault F) as [[e|]|].
    + apply (step_shape_after_lookup Bound rows trimmed).
      apply bound_validate_step; [discriminate | exact Hm].
    + left; simpl; auto with handlers.
    + apply (step_shape_after_lookup Bound rows trimmed).
      apply bound_validate_step; [|exact Hm].
      intros r Hr; apply (select_single_data trimmed rows r Hr).
  - destruct (jsstr_eqb (Event.httpMethod event) (js "OPTIONS")); [apply Hidle|].
    destruct (jsstr_eqb (Event.httpMethod event) (js "POST"));
      simpl negb; cbv iota; [|apply Hidle].
    destruct (negb _ || negb _); [apply Hlogged|].
    unfold createClient; destruct (createClient_throws host);
      [apply Hlogged|].
    destruct (Event.body event) as [|parsed]; [apply Hlogged|].
    cbn [JSON_parse attempt].
    destruct (destructure parsed) as [[code machineId]|]; [|apply Hlogged].
    cbn [attempt].
    destruct (negb (truthy code) || negb (is_string code)); [apply Hidle|].
    destruct (call_trim code) as [trimmed|]; [|apply Hlogged].
    cbn [attempt].
    destruct (jsstr_eqb trimmed (js "")); [apply Hidle|].
    cbn [attempt await try_catch run perform].
    destruct (select_fault F) as [[e|]|].
    + apply (step_shape_after_lookup Unbound rows trimmed).
      apply unbound_validate_step; discriminate.
    + left; simpl; auto with handlers.
    + apply (step_shape_after_lookup Unbound rows trimmed).
      apply unbound_validate_step.
      intros r Hr; apply (select_single_data trimmed rows r Hr).
Qed.

(** ** Sequences of invocations *)

Lemma in_update_by_id (p : Patch) (i : Z) (x : VerificationCode)
  (rows : Table) :
  In x (update_by_id p i rows) ->
  (In x rows /\ id x <> i)
  \/ (exists y, In y rows /\ id y = i /\ x = apply_patch p y).
Proof.
  unfold update_by_id; rewrite in_map_iff; intros (y & Hy & Hin).
  destruct (Z.eqb (id y) i) eqn:E.
  - right; exists y; apply Z.eqb_eq in E; auto.
  - left; subst x; apply Z.eqb_neq in E; auto.
Qed.

Lemma replay_keeps_stamped (invocations : list Invocation) :
  forall (rows final : Table) (xs : list Exchange),
    replay invocations rows = (final, xs) ->
    (forall r, In r rows -> stamped r) ->
    forall r, In r final -> stamped r.
Proof.
  induction invocations as [|i rest IH]; intros rows final xs; simpl.
  - intros E; inversion E; subst; auto.
  - destruct (replay rest (table (serve i rows))) as [final' later] eqn:Hrest.
    intros E Hs; inversion E; subst final' xs; clear E.
    apply (IH _ _ _ Hrest).
    destruct (serve_step i rows)
      as [[Ht _] | (r0 & instant & m & before & _ & _ & _ & _ & Ht & _)];
      rewrite Ht; [exact Hs|].
    intros x Hx; apply in_update_by_id in Hx.
    destruct Hx as [[Hx _] | (y & _ & _ & ->)]; [auto|].
    unfold stamped; simpl; split; [reflexivity | discriminate].
Qed.

(** ** Two first activations in flight *)

(** C8 fails on the code.  Two machine-bound first activations of one unused
    code, from the machines A and B, whose lookups are both served before
    either update: both are answered 200 with [success = true], the store
    admits both updates, and the record ends bound to B although A was told
    it had activated the code.  The machine-unbound variant answers both
    with 200 as well. *)
Theorem concurrent_first_activations_both_succeed :
  race [First; Second; First; Second]
    (MachineBound.handler sample_host
       (post (request (JStr (js "K1")) (JStr (js "machine-A")))))
    (MachineBound.handler sample_host
       (post (request (JStr (js "K1")) (JStr (js "machine-B")))))
    [fresh 1 "K1"]
  = Some
      (respond 200 true "Application activated successfully.",
       respond 200 true "Application activated successfully.",
       [activated (fresh 1 "K1") (now sample_host) (JStr (js "machine-B"))],
       [ {| query := SelectSingle (js "K1");
            settled := Fulfilled {| data := Some (fresh 1 "K1");
                                    error := None |} |};
         {| query := SelectSingle (js "K1");
            settled := Fulfilled {| data := Some (fresh 1 "K1");
                                    error := None |} |};
         {| query := UpdateById
                       (activation Bound (now sample_host)
                          (JStr (js "machine-A"))) 1;
            settled := Fulfilled {| data := None; error := None |} |};
         {| query := UpdateById
                       (activation Bound (now sample_host)
                          (JStr (js "machine-B"))) 1;
            settled := Fulfilled {| data := None; error := None |} |} ])
  /\ (exists final xs,
        race [First; Second; First; Second]
          (MachineUnbound.handler sample_host
             (post (request (JStr (js "K1")) (JStr (js "machine-A")))))
          (MachineUnbound.handler sample_host
             (post (request (JStr (js "K1")) (JStr (js "machine-B")))))
          [fresh 1 "K1"]
        = Some
            (respond 200 true "Verification successful. Access granted.",
             respond 200 true "Verification successful. Access granted.",
             final, xs)).
Proof.
  split; [reflexivity | eexists; eexists; reflexivity].
Qed.

(** * Further properties of the handlers *)

(** ** Reaching the lookup *)

Lemma lookup_reached (v : Variant) host event c machineId :
  posted event -> ready host -> carries event (JStr c) machineId ->
  passes v c machineId ->
  handler_of v host event =
  try_catch (await (SelectSingle (trim c)) (validate_of v host machineId))
    catch_block.
Proof.
  intros Hp Hr Hc Hv; destruct v; simpl in *.
  - destruct Hv as [Hne Hm]; apply bound_lookup; assumption.
  - apply (unbound_lookup _ _ _ machineId); assumption.
Qed.

(** ** Failures of the host and of the store *)

(** X1. A POST to a host that lacks either environment variable is answered
    500 "Server configuration error." after one console line, whatever the
    body: it is not parsed and no query is awaited. *)
Theorem missing_configuration_is_500 (v : Variant) (host : Host)
  (event : Event.t) :
  posted event ->
  truthy (env (SUPABASE_URL host)) = false
  \/ truthy (env (SUPABASE_ANON_KEY host)) = false ->
  handler_of v host event
  = ConsoleError "Supabase URL or Anon Key is not set."
      (Return (respond 500 false "Server configuration error.")).
Proof.
  intros Hp Henv.
  assert (E : negb (truthy (env (SUPABASE_URL host)))
              || negb (truthy (env (SUPABASE_ANON_KEY host))) = true)
    by (destruct Henv as [-> | ->]; [reflexivity | apply orb_true_r]).
  destruct v; unfold handler_of, MachineBound.handler, MachineUnbound.handler;
    rewrite Hp; simpl; rewrite E; reflexivity.
Qed.

Lemma missing_configuration_is_500_witness :
  handler_of Bound keyless_host
    {| Event.httpMethod := js "POST"; Event.body := Unparsable |}
  = ConsoleError "Supabase URL or Anon Key is not set."
      (Return (respond 500 false "Server configuration error.")).
Proof.
  apply missing_configuration_is_500; [reflexivity | right; reflexivity].
Defined.

(** X2. When the lookup fails, by an error other than PGRST116 in the reply
    or by a rejected promise, a valid POST is answered 500 in both variants,
    "Database query failed." in the first case and the catch block's message
    in the second; one line is logged, no update is issued and the table is
    left as it was. *)
Theorem lookup_failure_is_500 (v : Variant) (host : Host) (F : Faults)
  (event : Event.t) (c : JsString) (machineId : JsValue) (rows : Table)
  (f : Fault) :
  posted event -> ready host -> carries event (JStr c) machineId ->
  passes v c machineId ->
  select_fault F = Some f ->
  (forall e, f = Reports e -> PostgrestError.code e <> js "PGRST116") ->
  run F (handler_of v host event) rows
  = {| response := respond 500 false
                     (failure_message "Database query failed." f);
       table := rows;
       exchanges := [ {| query := SelectSingle (trim c);
                         settled := faulted f |} ];
       console := [ failure_line "Supabase select error:" f ] |}.
Proof.
  intros Hp Hr Hc Hv Hsel Hcode.
  rewrite (lookup_reached v _ _ _ _ Hp Hr Hc Hv).
  cbn [await try_catch run perform]; rewrite Hsel.
  destruct f as [e|]; [|reflexivity].
  specialize (Hcode e eq_refl); apply jsstr_eqb_neq in Hcode.
  destruct v; unfold validate_of, MachineBound.validate,
    MachineUnbound.validate; simpl; rewrite Hcode; reflexivity.
Qed.

Lemma lookup_failure_is_500_witness :
  run lookup_down
    (handler_of Unbound sample_host
       (post (request (JStr (js "K1")) (JStr (js "machine-A")))))
    [fresh 1 "K1"]
  = {| response := respond 500 false "Database query failed.";
       table := [fresh 1 "K1"];
       exchanges :=
         [ {| query := SelectSingle (trim (js "K1"));
              settled := Fulfilled
                           {| data := None;
                              error := Some {| PostgrestError.code :=
                                                 js "42P01" |} |} |} ];
       console := [ "Supabase select error:" ] |}.
Proof.
  apply (lookup_failure_is_500 Unbound sample_host lookup_down _ (js "K1")
           (JStr (js "machine-A")) [fresh 1 "K1"]
           (Reports {| PostgrestError.code := js "42P01" |})).
  - reflexivity.
  - repeat split.
  - eexists; split; reflexivity.
  - discriminate.
  - reflexivity.
  - intros e E; inversion E; discriminate.
Defined.

(** X3. When the update of a first activation fails, by any error in the
    reply or by a rejected promise, the POST is answered 500, with the
    variant's own message ("Failed to activate code.", "Failed to update code
    status.") in the first case and the catch block's in the second; one line
    is logged and the handler makes no further query. *)
Theorem update_failure_is_500 (v : Variant) (host : Host) (F : Faults)
  (event : Event.t) (c : JsString) (machineId : JsValue) (rows : Table)
  (r : VerificationCode) (f : Fault) :
  posted event -> ready host -> carries event (JStr c) machineId ->
  passes v c machineId ->
  select_fault F = None -> update_fault F = Some f ->
  NoDup (map code rows) -> In r rows -> code r = trim c ->
  is_used r = false ->
  run F (handler_of v host event) rows
  = {| response := respond 500 false
                     (failure_message (activation_failed v) f);
       table := rows;
       exchanges :=
         [ {| query := SelectSingle (trim c);
              settled := Fulfilled {| data := Some r; error := None |} |};
           {| query := UpdateById (activation v (now host) machineId) (id r);
              settled := faulted f |} ];
       console := [ failure_line "Supabase update error:" f ] |}.
Proof.
  intros Hp Hr Hc Hv Hsel Hupd Hnd Hin Hcode Hunused.
  rewrite (lookup_reached v _ _ _ _ Hp Hr Hc Hv).
  cbn [await try_catch run perform]; rewrite Hsel, <- Hcode.
  rewrite (select_single_found r rows Hnd Hin).
  destruct v; unfold validate_of, MachineBound.validate,
    MachineBound.activate, MachineUnbound.validate, MachineUnbound.activate;
    cbn [data error is_query_failure]; rewrite Hunused;
    cbn [await try_catch run perform]; rewrite Hupd;
    destruct f; reflexivity.
Qed.

Lemma update_failure_is_500_witness :
  run update_down
    (handler_of Bound sample_host
       (post (request (JStr (js "K1")) (JStr (js "machine-A")))))
    [fresh 1 "K1"]
  = {| response := respond 500 false "An unexpected error occurred.";
       table := [fresh 1 "K1"];
       exchanges :=
         [ {| query := SelectSingle (trim (js "K1"));
              settled := Fulfilled {| data := Some (fresh 1 "K1");
                                      error := None |} |};
           {| query := UpdateById
                         (activation Bound (now sample_host)
                            (JStr (js "machine-A"))) 1;
              settled := Rejected |} ];
       console := [ "Unexpected server error:" ] |}.
Proof.
  apply (update_failure_is_500 Bound sample_host update_down _ (js "K1")
           (JStr (js "machine-A")) [fresh 1 "K1"] (fresh 1 "K1") Throws);
    try reflexivity.
  - repeat split.
  - eexists; split; reflexivity.
  - split; [discriminate | reflexivity].
  - repeat constructor; simpl; tauto.
  - left; reflexivity.
Defined.

(** ** First activation in the machine-unbound variant *)

(** X4. In the machine-unbound variant, a POST whose trimmed [code] is that
    of an unused record, served without faults, makes the lookup and one
    update keyed by the record's id that sets [is_used] and [used_at] and
    nothing else; the answer is 200 "Verification successful. Access
    granted." and the record keeps the [machine_id] it had. *)
Theorem unbound_first_activation (host : Host) (F : Faults) (event : Event.t)
  (c : JsString) (machineId : JsValue) (rows : Table) (r : VerificationCode) :
  posted event -> ready host -> carries event (JStr c) machineId ->
  trim c <> [] ->
  select_fault F = None -> update_fault F = None ->
  NoDup (map code rows) -> In r rows -> code r = trim c ->
  is_used r = false ->
  let patch := {| set_is_used := true; set_used_at := now host;
                  set_machine_id := None |} in
  run F (MachineUnbound.handler host event) rows
  = {| response :=
         respond 200 true "Verification successful. Access granted.";
       table := update_by_id patch (id r) rows;
       exchanges :=
         [ {| query := SelectSingle (trim c);
              settled := Fulfilled {| data := Some r; error := None |} |};
           {| query := UpdateById patch (id r);
              settled := Fulfilled {| data := None; error := None |} |} ];
       console := [] |}
  /\ In (activated r (now host) (machine_id r))
        (update_by_id patch (id r) rows).
Proof.
  intros Hp Hr Hc Hne Hsel Hupd Hnd Hin Hcode Hunused patch; split.
  - rewrite (unbound_lookup _ _ _ _ Hp Hr Hc Hne).
    cbn [await try_catch run perform]; rewrite Hsel, <- Hcode.
    rewrite (select_single_found r rows Hnd Hin).
    unfold MachineUnbound.validate, MachineUnbound.activate.
    cbn [data error is_query_failure]; rewrite Hunused.
    cbn [await try_catch run perform]; rewrite Hupd; reflexivity.
  - replace (activated r (now host) (machine_id r)) with (apply_patch patch r)
      by reflexivity.
    apply update_by_id_in; exact Hin.
Qed.

Lemma unbound_first_activation_witness :
  response (run healthy
              (MachineUnbound.handler sample_host
                 (post (JObj [(js "code", JStr (js " K1 "))])))
              [fresh 1 "K1"; taken 2 "K2" "machine-A"])
  = respond 200 true "Verification successful. Access granted."
  /\ In (activated (fresh 1 "K1") (now sample_host) JNull)
        (table (run healthy
                  (MachineUnbound.handler sample_host
                     (post (JObj [(js "code", JStr (js " K1 "))])))
                  [fresh 1 "K1"; taken 2 "K2" "machine-A"])).
Proof.
  destruct (unbound_first_activation sample_host healthy
              (post (JObj [(js "code", JStr (js " K1 "))]))
              (js " K1 ") JUndefined
              [fresh 1 "K1"; taken 2 "K2" "machine-A"] (fresh 1 "K1"))
    as [Hrun Hin]; try reflexivity.
  - repeat split.
  - eexists; split; reflexivity.
  - discriminate.
  - repeat constructor; simpl; intuition discriminate.
  - left; reflexivity.
  - rewrite Hrun; split; [reflexivity | exact Hin].
Defined.

(** ** Every path of the handlers *)

#[local] Arguments select_single : simpl never.
#[local] Arguments update_by_id : simpl never.
#[local] Arguments trim : simpl never.

(** Opens the handlers' definitions and computes. *)
Ltac open_handlers :=
  unfold handler_of, validate_of, MachineBound.handler,
    MachineUnbound.handler, MachineBound.validate, MachineUnbound.validate,
    MachineBound.activate, MachineUnbound.activate, createClient, attempt,
    await, perform, faulted;
  simpl.

(** Walks every path of a handler played by [run]; [tac] runs after each
    branching. *)
Ltac explore_with tac :=
  open_handlers; open_handlers; tac;
  repeat (branch; open_handlers; tac).

Ltac explore := explore_with idtac.

(** What the lookup found is a record of the table. *)
Ltac found :=
  match goal with
  | H : data (select_single _ _) = Some _ |- _ =>
      destruct (select_single_data _ _ _ H)
  end.

Lemma strict_equals_to_string (a : JsValue) (s : JsString) :
  strict_equals a (JStr s) = true -> a = JStr s.
Proof.
  destruct a as [| | |[|]|x| |]; simpl; try discriminate.
  intros E; apply jsstr_eqb_eq in E; congruence.
Qed.

(** X5. Every response, on every path of both handlers and whatever the
    store does, carries the three CORS headers. *)
Theorem responses_carry_cors_headers (v : Variant) (host : Host) (F : Faults)
  (event : Event.t) (rows : Table) :
  Response.headers (response (run F (handler_of v host event) rows))
  = cors_headers.
Proof. destruct v; explore; reflexivity. Qed.

(** X6. A handler writes to the console exactly when it answers 500, and
    then one line only: every 500 is logged and no other answer is. *)
Theorem failures_are_logged (v : Variant) (host : Host) (F : Faults)
  (event : Event.t) (rows : Table) :
  (console (run F (handler_of v host event) rows) = []
   <-> Response.statusCode (response (run F (handler_of v host event) rows))
       <> 500)
  /\ (List.length (console (run F (handler_of v host event) rows)) <= 1)%nat.
Proof.
  destruct v; explore; (split; [intuition congruence | simpl; lia]).
Qed.

(** X7. An invocation makes no query, or the lookup alone, or the lookup
    followed by one update.  The update is sent only when the lookup handed
    back a record of the table with the code asked for and [is_used] false;
    it is keyed by that record's id and sets [is_used] to true. *)
Theorem queries_are_lookup_then_update (v : Variant) (host : Host)
  (F : Faults) (event : Event.t) (rows : Table) :
  exchanges (run F (handler_of v host event) rows) = []
  \/ (exists c s,
        exchanges (run F (handler_of v host event) rows)
        = [ {| query := SelectSingle c; settled := s |} ])
  \/ (exists c reply r p s,
        exchanges (run F (handler_of v host event) rows)
        = [ {| query := SelectSingle c; settled := Fulfilled reply |};
            {| query := UpdateById p (id r); settled := s |} ]
        /\ data reply = Some r /\ In r rows /\ code r = c
        /\ is_used r = false /\ set_is_used p = true).
Proof.
  destruct v; explore;
    first [ left; reflexivity
          | right; left; eexists; eexists; reflexivity
          | right; right; found;
            do 5 eexists; split; [reflexivity | repeat split; assumption] ].
Qed.

(** X8. Only a 200 answer goes with a change of the table: on every other
    answer the table is as it was and the store admitted no update. *)
Theorem only_success_mutates (v : Variant) (host : Host) (F : Faults)
  (event : Event.t) (rows : Table) :
  Response.statusCode (response (run F (handler_of v host event) rows)) <> 200 ->
  table (run F (handler_of v host event) rows) = rows
  /\ quiet (exchanges (run F (handler_of v host event) rows)).
Proof.
  destruct v; explore; intros H;
    solve [ exfalso; apply H; reflexivity
          | split; [reflexivity | repeat constructor] ].
Qed.

Lemma only_success_mutates_witness :
  table (run healthy
           (handler_of Bound sample_host
              (post (request (JStr (js "K1")) (JStr (js "machine-B")))))
           [taken 1 "K1" "machine-A"])
  = [taken 1 "K1" "machine-A"]
  /\ quiet (exchanges
             (run healthy
                (handler_of Bound sample_host
                   (post (request (JStr (js "K1")) (JStr (js "machine-B")))))
                [taken 1 "K1" "machine-A"])).
Proof. apply only_success_mutates; discriminate. Defined.

(** X9. The machine-bound handler answers 200 only when the table it leaves
    holds a used record with the trimmed [code] whose [machine_id] is the
    submitted [machineId], be it bound just now or before. *)
Theorem success_means_bound (host : Host) (F : Faults) (event : Event.t)
  (c m : JsString) (rows : Table) :
  carries event (JStr c) (JStr m) ->
  Response.statusCode (response (run F (MachineBound.handler host event) rows))
  = 200 ->
  exists r,
    In r (table (run F (MachineBound.handler host event) rows))
    /\ code r = trim c /\ is_used r = true /\ machine_id r = JStr m.
Proof.
  intros (parsed & Hb & Hd).
  destruct event as [method body]; simpl in Hb; subst body.
  explore_with ltac:(rewrite ?Hd; simpl); try discriminate; intros _; found.
  - match goal with
    | H : strict_equals _ _ = true |- _ => apply strict_equals_to_string in H
    end.
    eexists; eauto.
  - match goal with
    | H : In ?r rows |- context [update_by_id ?p _ _] =>
        exists (apply_patch p r); split; [apply update_by_id_in; exact H|]
    end.
    simpl; auto.
Qed.

Lemma success_means_bound_witness :
  exists r,
    In r (table (run healthy
                   (MachineBound.handler sample_host
                      (post (request (JStr (js "K1")) (JStr (js "machine-A")))))
                   [fresh 1 "K1"]))
    /\ code r = trim (js "K1") /\ is_used r = true
    /\ machine_id r = JStr (js "machine-A").
Proof.
  apply (success_means_bound sample_host healthy _ (js "K1") (js "machine-A")).
  - eexists; split; reflexivity.
  - reflexivity.
Defined.

(** X10. The machine-unbound handler answers 200 only for a first
    activation: the lookup found an unused record with the trimmed [code],
    and the table it leaves is the old one with that record's id updated to
    used at the current instant; a used code is never answered 200 again. *)
Theorem unbound_success_is_activation (host : Host) (F : Faults)
  (event : Event.t) (c : JsString) (machineId : JsValue) (rows : Table) :
  carries event (JStr c) machineId ->
  Response.statusCode
    (response (run F (MachineUnbound.handler host event) rows)) = 200 ->
  exists r,
    In r rows /\ code r = trim c /\ is_used r = false
    /\ table (run F (MachineUnbound.handler host event) rows)
       = update_by_id (activation Unbound (now host) machineId) (id r) rows.
Proof.
  intros (parsed & Hb & Hd).
  destruct event as [method body]; simpl in Hb; subst body.
  explore_with ltac:(rewrite ?Hd; simpl); try discriminate; intros _; found.
  eexists; eauto.
Qed.

Lemma unbound_success_is_activation_witness :
  exists r,
    In r [fresh 1 "K1"] /\ code r = trim (js "K1") /\ is_used r = false
    /\ table (run healthy
                (MachineUnbound.handler sample_host
                   (post (JObj [(js "code", JStr (js "K1"))])))
                [fresh 1 "K1"])
       = update_by_id (activation Unbound (now sample_host) JUndefined)
           (id r) [fresh 1 "K1"].
Proof.
  apply (unbound_success_is_activation sample_host healthy _ (js "K1")).
  - eexists; split; reflexivity.
  - reflexivity.
Defined.

(** ** Exactly when a request is answered 400 *)

Lemma after_lookup_not_400 (v : Variant) host machineId F c rows :
  Response.statusCode
    (response (run F (try_catch (await (SelectSingle c)
                                   (validate_of v host machineId))
                        catch_block) rows)) <> 400.
Proof. destruct v; explore; discriminate. Qed.

(** X11. A POST to a configured host whose body destructures is answered 400
    exactly when its input fails the validation: in the machine-bound variant
    when [code] or [machineId] is falsy, in the machine-unbound variant when
    [code] is not a string or is blank.  No answer of the store turns into a
    400. *)
Theorem bad_request_exactly (v : Variant) (host : Host) (F : Faults)
  (event : Event.t) (code machineId : JsValue) (rows : Table) :
  posted event -> ready host -> carries event code machineId ->
  Response.statusCode (response (run F (handler_of v host event) rows)) = 400
  <-> refused v code machineId.
Proof.
  intros Hp Hr Hc; destruct v; unfold handler_of, refused.
  - rewrite (bound_prefix _ _ _ _ Hp Hr Hc).
    destruct (truthy code) eqn:Hcode; [|simpl; tauto].
    destruct (truthy machineId) eqn:Hm; [|simpl; tauto].
    cbn [negb orb].
    destruct code as [| |b|n|s|elems|props];
      try (simpl; split; [discriminate | intros [H|H]; discriminate H]).
    cbn [call_trim attempt]; split; [|intros [H|H]; discriminate H].
    intros H; exfalso; revert H; apply (after_lookup_not_400 Bound).
  - rewrite (unbound_prefix _ _ _ _ Hp Hr Hc).
    destruct code as [| |b|n|s|elems|props];
      try (cbn [is_string negb]; rewrite orb_true_r; simpl; tauto).
    destruct s as [|x s].
    + simpl; split; [|reflexivity].
      intros _; right; exists []; split; reflexivity.
    + cbn [truthy is_string negb orb call_trim attempt].
      destruct (jsstr_eqb (trim (x :: s)) (js "")) eqn:E.
      * simpl; split; [|reflexivity].
        intros _; right; exists (x :: s); split; [reflexivity|].
        apply jsstr_eqb_eq in E; exact E.
      * split.
        -- intros H; exfalso; revert H;
             apply (after_lookup_not_400 Unbound host machineId).
        -- intros [H | (s' & Hs & Ht)]; [discriminate H|].
           inversion Hs; subst s'; rewrite Ht in E; discriminate E.
Qed.

Lemma bad_request_exactly_witness :
  Response.statusCode
    (response (run healthy
                 (handler_of Unbound sample_host
                    (post (request (JStr (js "   ")) (JStr (js "machine-A")))))
                 [fresh 1 "K1"])) = 400
  <-> refused Unbound (JStr (js "   ")) (JStr (js "machine-A")).
Proof.
  apply bad_request_exactly.
  - reflexivity.
  - repeat split.
  - eexists; split; reflexivity.
Defined.

(** ** What no sequence of invocations changes *)

Lemma update_by_id_ids (p : Patch) (i : Z) (rows : Table) :
  map id (update_by_id p i rows) = map id rows.
Proof.
  unfold update_by_id; rewrite map_map; apply map_ext.
  intros r; destruct (Z.eqb (id r) i); reflexivity.
Qed.

Lemma update_by_id_codes (p : Patch) (i : Z) (rows : Table) :
  map code (update_by_id p i rows) = map code rows.
Proof.
  unfold update_by_id; rewrite map_map; apply map_ext.
  intros r; destruct (Z.eqb (id r) i); reflexivity.
Qed.

Lemma serve_ids_codes (i : Invocation) (rows : Table) :
  map id (table (serve i rows)) = map id rows
  /\ map code (table (serve i rows)) = map code rows.
Proof.
  destruct (serve_step i rows)
    as [[-> _] | (r & instant & m & before & _ & _ & _ & _ & -> & _)];
    [auto|].
  split; [apply update_by_id_ids | apply update_by_id_codes].
Qed.

(** Two records of a table with distinct ids that share their id are one. *)
Lemma same_id_same_row (rows : Table) (a b : VerificationCode) :
  NoDup (map id rows) -> In a rows -> In b rows -> id a = id b -> a = b.
Proof.
  induction rows as [|x rows IH]; simpl; [contradiction|].
  intros Hnd Ha Hb E; inversion Hnd as [|? ? Hx Hrest]; subst.
  destruct Ha as [-> | Ha], Hb as [-> | Hb]; auto.
  - exfalso; apply Hx; rewrite E; apply in_map; exact Hb.
  - exfalso; apply Hx; rewrite <- E; apply in_map; exact Ha.
Qed.

(** X13. With distinct ids, a used record is immutable: whatever invocations
    follow, of either variant, it is still in the table, as it was. *)
Theorem used_records_are_immutable (invocations : list Invocation)
  (rows : Table) (r : VerificationCode) :
  NoDup (map id rows) -> In r rows -> is_used r = true ->
  In r (fst (replay invocations rows)).
Proof.
  revert rows; induction invocations as [|i rest IH]; intros rows Hnd Hin Hu;
    simpl; [exact Hin|].
  specialize (IH (table (serve i rows))).
  destruct (replay rest (table (serve i rows))) as [final later]; simpl in *.
  apply IH; [rewrite (proj1 (serve_ids_codes i rows)); exact Hnd | | exact Hu].
  destruct (serve_step i rows)
    as [[-> _] | (r0 & instant & m & before & Hin0 & Hu0 & _ & _ & -> & _)];
    [exact Hin|].
  apply update_by_id_other; [exact Hin|].
  intros E; rewrite (same_id_same_row rows r r0 Hnd Hin Hin0 E) in Hu.
  congruence.
Qed.

Lemma used_records_are_immutable_witness :
  In (taken 1 "K1" "machine-A")
     (fst (replay [bound_K1_B; unbound_K1; bound_K1_A]
             [taken 1 "K1" "machine-A"; fresh 2 "K2"])).
Proof.
  apply used_records_are_immutable.
  - repeat constructor; simpl; intuition discriminate.
  - left; reflexivity.
  - reflexivity.
Defined.

(** X14. With distinct ids, a request touches no record of another code:
    every record whose code is not the trimmed [code] of the request is in
    the table afterwards, as it was. *)
Theorem other_codes_untouched (v : Variant) (host : Host) (F : Faults)
  (event : Event.t) (c : JsString) (machineId : JsValue) (rows : Table)
  (x : VerificationCode) :
  NoDup (map id rows) -> carries event (JStr c) machineId ->
  In x rows -> code x <> trim c ->
  In x (table (run F (handler_of v host event) rows)).
Proof.
  intros Hnd (parsed & Hb & Hd) Hx Hcode.
  destruct event as [method body]; simpl in Hb; subst body.
  destruct v; explore_with ltac:(rewrite ?Hd; simpl); try exact Hx.
  all: found; apply update_by_id_other; [exact Hx|].
  all: intros E;
    match goal with
    | H : In ?r _, Hr : code ?r = _ |- _ =>
        rewrite (same_id_same_row _ x r Hnd Hx H E) in Hcode
    end; congruence.
Qed.

Lemma other_codes_untouched_witness :
  In (fresh 2 "K2")
     (table (run healthy
               (handler_of Bound sample_host
                  (post (request (JStr (js "K1")) (JStr (js "machine-A")))))
               [fresh 1 "K1"; fresh 2 "K2"])).
Proof.
  apply (other_codes_untouched Bound sample_host healthy _ (js "K1")
           (JStr (js "machine-A"))).
  - repeat constructor; simpl; intuition discriminate.
  - eexists; split; reflexivity.
  - right; left; reflexivity.
  - discriminate.
Defined.

(** ** One request after another *)

Lemma activation_run (v : Variant) host F event c machineId rows r :
  posted event -> ready host -> carries event (JStr c) machineId ->
  passes v c machineId ->
  select_fault F = None -> update_fault F = None ->
  NoDup (map code rows) -> In r rows -> code r = trim c ->
  is_used r = false ->
  run F (handler_of v host event) rows
  = {| response := activation_done v;
       table := update_by_id (activation v (now host) machineId) (id r) rows;
       exchanges :=
         [ {| query := SelectSingle (trim c);
              settled := Fulfilled {| data := Some r; error := None |} |};
           {| query := UpdateById (activation v (now host) machineId) (id r);
              settled := Fulfilled {| data := None; error := None |} |} ];
       console := [] |}.
Proof.
  intros Hp Hr Hc Hv Hsel Hupd Hnd Hin Hcode Hunused.
  rewrite (lookup_reached v _ _ _ _ Hp Hr Hc Hv).
  cbn [await try_catch run perform]; rewrite Hsel, <- Hcode.
  rewrite (select_single_found r rows Hnd Hin).
  destruct v; unfold validate_of, MachineBound.validate,
    MachineBound.activate, MachineUnbound.validate, MachineUnbound.activate;
    cbn [data error is_query_failure]; rewrite Hunused;
    cbn [await try_catch run perform]; rewrite Hupd; reflexivity.
Qed.

Lemma used_lookup_run (v : Variant) host F event c machineId rows r :
  posted event -> ready host -> carries event (JStr c) machineId ->
  passes v c machineId ->
  select_fault F = None ->
  NoDup (map code rows) -> In r rows -> code r = trim c ->
  is_used r = true ->
  run F (handler_of v host event) rows
  = {| response :=
         match v with
         | Bound =>
             if strict_equals (machine_id r) machineId then
               respond 200 true "Verification successful."
             else
               respond 403 false
                 "This code has already been used on another computer."
         | Unbound =>
             respond 404 false "Invalid or already used verification code."
         end;
       table := rows;
       exchanges :=
         [ {| query := SelectSingle (trim c);
              settled := Fulfilled {| data := Some r; error := None |} |} ];
       console := [] |}.
Proof.
  intros Hp Hr Hc Hv Hsel Hnd Hin Hcode Hused.
  rewrite (lookup_reached v _ _ _ _ Hp Hr Hc Hv).
  cbn [await try_catch run perform]; rewrite Hsel, <- Hcode.
  rewrite (select_single_found r rows Hnd Hin).
  destruct v; unfold validate_of, MachineBound.validate,
    MachineUnbound.validate;
    cbn [data error is_query_failure]; rewrite Hused; [|reflexivity].
  destruct (strict_equals (machine_id r) machineId); reflexivity.
Qed.

(** Settles the side conditions of a statement at concrete data. *)
Ltac settle :=
  first [ reflexivity
        | discriminate
        | left; reflexivity
        | eexists; split; reflexivity
        | repeat constructor; simpl; intuition discriminate ].

(** X15. The machine-bound variant remembers who activated a code.  After a
    first activation by the machine [m1], a later request for the same code
    (up to surrounding white space) is answered 200 "Verification
    successful." when it comes from [m1] and 403 when it comes from another
    machine; either way its only query is the lookup and the table stays as
    the activation left it. *)
Theorem activation_is_remembered (host1 host2 : Host) (F1 F2 : Faults)
  (event1 event2 : Event.t) (c1 c2 m1 m2 : JsString) (rows : Table)
  (r : VerificationCode) :
  posted event1 -> ready host1 -> carries event1 (JStr c1) (JStr m1) ->
  c1 <> [] -> m1 <> [] ->
  select_fault F1 = None -> update_fault F1 = None ->
  NoDup (map code rows) -> In r rows -> code r = trim c1 ->
  is_used r = false ->
  posted event2 -> ready host2 -> carries event2 (JStr c2) (JStr m2) ->
  c2 <> [] -> m2 <> [] -> trim c2 = trim c1 ->
  select_fault F2 = None ->
  let after := table (run F1 (MachineBound.handler host1 event1) rows) in
  let lookup :=
    {| query := SelectSingle (trim c2);
       settled := Fulfilled
                    {| data := Some (activated r (now host1) (JStr m1));
                       error := None |} |} in
  (m2 = m1 ->
   run F2 (MachineBound.handler host2 event2) after
   = {| response := respond 200 true "Verification successful.";
        table := after; exchanges := [lookup]; console := [] |})
  /\ (m2 <> m1 ->
      run F2 (MachineBound.handler host2 event2) after
      = {| response :=
             respond 403 false
               "This code has already been used on another computer.";
           table := after; exchanges := [lookup]; console := [] |}).
Proof.
  intros Hp1 Hr1 Hc1 Hne1 Hm1 Hsel1 Hupd1 Hnd Hin Hcode Hunused
         Hp2 Hr2 Hc2 Hne2 Hm2 Htrim Hsel2 after lookup.
  apply truthy_string in Hm1, Hm2.
  assert (Hafter : after = update_by_id (activation Bound (now host1) (JStr m1))
                             (id r) rows).
  { subst after.
    change (MachineBound.handler host1 event1)
      with (handler_of Bound host1 event1).
    rewrite (activation_run Bound host1 F1 event1 c1 (JStr m1) rows r);
      auto; split; assumption. }
  assert (Hrun : run F2 (handler_of Bound host2 event2) after
                 = {| response :=
                        if strict_equals (JStr m1) (JStr m2) then
                          respond 200 true "Verification successful."
                        else
                          respond 403 false
                            "This code has already been used on another computer.";
                      table := after; exchanges := [lookup]; console := [] |}).
  { apply (used_lookup_run Bound host2 F2 event2 c2 (JStr m2) after
             (activated r (now host1) (JStr m1))); auto.
    - split; assumption.
    - rewrite Hafter, update_by_id_codes; exact Hnd.
    - rewrite Hafter.
      change (activated r (now host1) (JStr m1))
        with (apply_patch (activation Bound (now host1) (JStr m1)) r).
      apply update_by_id_in; exact Hin.
    - simpl; congruence. }
  change (MachineBound.handler host2 event2)
    with (handler_of Bound host2 event2).
  rewrite Hrun; simpl strict_equals; split.
  - intros ->; rewrite jsstr_eqb_refl; reflexivity.
  - intros Hother; rewrite jsstr_eqb_neq; [reflexivity | congruence].
Qed.

Lemma activation_is_remembered_witness :
  Response.statusCode
    (response
       (run healthy
          (MachineBound.handler sample_host
             (post (request (JStr (js "K1 ")) (JStr (js "machine-A")))))
          (table (run healthy
                    (MachineBound.handler sample_host
                       (post (request (JStr (js "K1"))
                                (JStr (js "machine-A")))))
                    [fresh 1 "K1"])))) = 200
  /\ Response.statusCode
       (response
          (run healthy
             (MachineBound.handler sample_host
                (post (request (JStr (js "K1")) (JStr (js "machine-B")))))
             (table (run healthy
                       (MachineBound.handler sample_host
                          (post (request (JStr (js "K1"))
                                   (JStr (js "machine-A")))))
                       [fresh 1 "K1"])))) = 403.
Proof.
  split.
  - refine (f_equal (fun o => Response.statusCode (response o))
              (proj1 (activation_is_remembered sample_host sample_host
                        healthy healthy
                        (post (request (JStr (js "K1"))
                                 (JStr (js "machine-A"))))
                        (post (request (JStr (js "K1 "))
                                 (JStr (js "machine-A"))))
                        (js "K1") (js "K1 ") (js "machine-A")
                        (js "machine-A") [fresh 1 "K1"] (fresh 1 "K1")
                        _ _ _ _ _ _ _ _ _ _ _ _ _ _ _ _ _ _) eq_refl));
      settle.
  - refine (f_equal (fun o => Response.statusCode (response o))
              (proj2 (activation_is_remembered sample_host sample_host
                        healthy healthy
                        (post (request (JStr (js "K1"))
                                 (JStr (js "machine-A"))))
                        (post (request (JStr (js "K1"))
                                 (JStr (js "machine-B"))))
                        (js "K1") (js "K1") (js "machine-A")
                        (js "machine-B") [fresh 1 "K1"] (fresh 1 "K1")
                        _ _ _ _ _ _ _ _ _ _ _ _ _ _ _ _ _ _) _));
      settle.
Defined.

(** X16. In the machine-unbound variant a code works once.  After a first
    activation, every later request for the same code (up to surrounding
    white space) is answered 404, whoever sends it; its only query is the
    lookup and the table stays as the activation left it. *)
Theorem unbound_code_is_single_use (host1 host2 : Host) (F1 F2 : Faults)
  (event1 event2 : Event.t) (c1 c2 : JsString) (m1 m2 : JsValue)
  (rows : Table) (r : VerificationCode) :
  posted event1 -> ready host1 -> carries event1 (JStr c1) m1 ->
  select_fault F1 = None -> update_fault F1 = None ->
  NoDup (map code rows) -> In r rows -> code r = trim c1 -> code r <> [] ->
  is_used r = false ->
  posted event2 -> ready host2 -> carries event2 (JStr c2) m2 ->
  trim c2 = trim c1 -> select_fault F2 = None ->
  let after := table (run F1 (MachineUnbound.handler host1 event1) rows) in
  run F2 (MachineUnbound.handler host2 event2) after
  = {| response :=
         respond 404 false "Invalid or already used verification code.";
       table := after;
       exchanges :=
         [ {| query := SelectSingle (trim c2);
              settled := Fulfilled
                           {| data := Some (activated r (now host1)
                                              (machine_id r));
                              error := None |} |} ];
       console := [] |}.
Proof.
  intros Hp1 Hr1 Hc1 Hsel1 Hupd1 Hnd Hin Hcode Hne Hunused
         Hp2 Hr2 Hc2 Htrim Hsel2 after.
  assert (Hv1 : passes Unbound c1 m1) by (simpl; congruence).
  assert (Hv2 : passes Unbound c2 m2) by (simpl; congruence).
  assert (Hafter : after = update_by_id (activation Unbound (now host1) m1)
                             (id r) rows).
  { subst after.
    change (MachineUnbound.handler host1 event1)
      with (handler_of Unbound host1 event1).
    rewrite (activation_run Unbound host1 F1 event1 c1 m1 rows r); auto. }
  change (MachineUnbound.handler host2 event2)
    with (handler_of Unbound host2 event2).
  apply (used_lookup_run Unbound host2 F2 event2 c2 m2 after
           (activated r (now host1) (machine_id r))); auto.
  - rewrite Hafter, update_by_id_codes; exact Hnd.
  - rewrite Hafter.
    change (activated r (now host1) (machine_id r))
      with (apply_patch (activation Unbound (now host1) m1) r).
    apply update_by_id_in; exact Hin.
  - simpl; congruence.
Qed.

Lemma unbound_code_is_single_use_witness :
  Response.statusCode
    (response
       (run healthy
          (MachineUnbound.handler sample_host
             (post (JObj [(js "code", JStr (js "K1"))])))
          (table (run healthy
                    (MachineUnbound.handler sample_host
                       (post (JObj [(js "code", JStr (js "K1"))])))
                    [fresh 1 "K1"])))) = 404.
Proof.
  refine (f_equal (fun o => Response.statusCode (response o))
            (unbound_code_is_single_use sample_host sample_host healthy
               healthy
               (post (JObj [(js "code", JStr (js "K1"))]))
               (post (JObj [(js "code", JStr (js "K1"))]))
               (js "K1") (js "K1") JUndefined JUndefined
               [fresh 1 "K1"] (fresh 1 "K1")
               _ _ _ _ _ _ _ _ _ _ _ _ _ _ _));
    settle.
Defined.

(** X17. Codes are matched up to surrounding white space: two valid requests
    whose [code] strings trim to the same string, with the same [machineId],
    run the same handler, hence get the same answer and leave the same
    table. *)
Theorem surrounding_space_is_ignored (v : Variant) (host : Host)
  (event1 event2 : Event.t) (c1 c2 : JsString) (machineId : JsValue) :
  posted event1 -> posted event2 -> ready host ->
  carries event1 (JStr c1) machineId -> carries event2 (JStr c2) machineId ->
  passes v c1 machineId -> passes v c2 machineId ->
  trim c1 = trim c2 ->
  handler_of v host event1 = handler_of v host event2.
Proof.
  intros Hp1 Hp2 Hr Hc1 Hc2 Hv1 Hv2 Htrim.
  rewrite (lookup_reached v _ _ _ _ Hp1 Hr Hc1 Hv1).
  rewrite (lookup_reached v _ _ _ _ Hp2 Hr Hc2 Hv2).
  rewrite Htrim; reflexivity.
Qed.

Lemma surrounding_space_is_ignored_witness :
  handler_of Bound sample_host
    (post (request (JStr (js "  K1")) (JStr (js "machine-A"))))
  = handler_of Bound sample_host
      (post (request (JStr (js "K1 ")) (JStr (js "machine-A")))).
Proof.
  apply (surrounding_space_is_ignored Bound sample_host _ _
           (js "  K1") (js "K1 ") (JStr (js "machine-A")));
    try reflexivity.
  - repeat split.
  - eexists; split; reflexivity.
  - eexists; split; reflexivity.
  - split; [discriminate | reflexivity].
  - split; [discriminate | reflexivity].
Defined.

(** ** The race, for every table *)



(** ** Who activated a record *)

Lemma carries_intro (e : Event.t) (parsed code machineId : JsValue) :
  JSON_parse (Event.body e) = Normal parsed ->
  destructure parsed = Normal (code, machineId) ->
  carries e code machineId.
Proof.
  intros Hp Hd; exists parsed; split; [|exact Hd].
  destruct (Event.body e); simpl in Hp; congruence.
Qed.

Lemma call_trim_string (code : JsValue) (t : JsString) :
  call_trim code = Normal t -> exists s, code = JStr s /\ t = trim s.
Proof.
  destruct code; simpl; try discriminate.
  intros E; inversion E; eauto.
Qed.

Lemma passes_bound (s : JsString) (m : JsValue) :
  negb (truthy (JStr s)) || negb (truthy m) = false -> passes Bound s m.
Proof.
  intros H; apply orb_false_elim in H; destruct H as [Hs Hm].
  apply negb_false_iff in Hs, Hm; split; [apply truthy_string|]; assumption.
Qed.

Lemma passes_unbound (s : JsString) (m : JsValue) :
  jsstr_eqb (trim s) (js "") = false -> passes Unbound s m.
Proof. intros H E; simpl in E; rewrite E in H; discriminate. Qed.

(** An invocation either leaves the table alone and activates no row, or is
    a valid request whose lookup found an unused record, which it
    activates. *)
Lemma serve_cases (i : Invocation) (rows : Table) :
  (table (serve i rows) = rows /\ forall j, activates j (serve i rows) = false)
  \/ (exists r c m,
        carries (event i) (JStr c) m /\ passes (variant i) c m
        /\ In r rows /\ is_used r = false
        /\ table (serve i rows)
           = update_by_id (activation (variant i) (now (host i)) m) (id r) rows
        /\ forall j, activates j (serve i rows) = Z.eqb (id r) j).
Proof.
  destruct i as [v host F event]; unfold serve, activates; simpl.
  destruct v; explore;
    first
      [ left; split; [reflexivity | intros ?; reflexivity]
      | right;
        match goal with
        | Hp : JSON_parse _ = Normal ?a,
          Hd : destructure ?a = Normal (?c, ?m),
          Ht : call_trim ?c = Normal ?t |- _ =>
            destruct (call_trim_string _ _ Ht) as (s & ? & ?); subst;
            pose proof (carries_intro _ _ _ _ Hp Hd)
        end;
        found;
        match goal with
        | Hr : In ?r _, Hk : code ?r = _, Hc : carries _ (JStr ?s) ?m |- _ =>
            exists r, s, m
        end;
        split; [assumption|];
        split; [first [ apply passes_bound; assumption
                      | apply passes_unbound; assumption ]|];
        split; [assumption|];
        split; [assumption|];
        split; [reflexivity|];
        intros ?; apply orb_false_r ].
Qed.

Lemma replay_cons_table (i : Invocation) (rest : list Invocation)
  (rows : Table) :
  fst (replay (i :: rest) rows) = fst (replay rest (table (serve i rows))).
Proof.
  simpl; destruct (replay rest (table (serve i rows))); reflexivity.
Qed.

(** Rows that are all used are never activated, and stay as they are. *)
Lemma used_rows_stay (invocations : list Invocation) :
  forall (rows : Table) (j : Z),
    (forall x, In x rows -> id x = j -> is_used x = true) ->
    first_activator j (served invocations rows) = None
    /\ (forall x, In x (fst (replay invocations rows)) -> id x = j ->
                  In x rows).
Proof.
  induction invocations as [|i rest IH]; intros rows j Hused;
    [simpl; auto|].
  rewrite replay_cons_table; cbn [served first_activator].
  destruct (serve_cases i rows)
    as [[Ht Hq] | (r & c & m & _ & _ & Hin & Hu & Ht & Hact)].
  - rewrite Hq, Ht; apply IH; exact Hused.
  - assert (Hj : id r <> j)
      by (intros E; rewrite (Hused r Hin E) in Hu; discriminate).
    rewrite Hact, (proj2 (Z.eqb_neq _ _) Hj), Ht.
    destruct (IH (update_by_id (activation (variant i) (now (host i)) m)
                    (id r) rows) j) as [Hnone Hsame].
    { intros x Hx Hid; apply in_update_by_id in Hx.
      destruct Hx as [[Hx _] | (y & _ & Hy & ->)]; [auto|].
      simpl in Hid; congruence. }
    split; [exact Hnone|].
    intros x Hx Hid; specialize (Hsame x Hx Hid).
    apply in_update_by_id in Hsame.
    destruct Hsame as [[Hx' _] | (y & _ & Hy & ->)]; [exact Hx'|].
    simpl in Hid; congruence.
Qed.

Lemma replay_keeps_stamped_table (invocations : list Invocation)
  (rows : Table) :
  (forall r, In r rows -> stamped r) ->
  forall r, In r (fst (replay invocations rows)) -> stamped r.
Proof.
  apply (replay_keeps_stamped invocations rows _ _ (surjective_pairing _)).
Qed.

(** Sequences of machine-bound requests with string machine ids. *)
Lemma replay_binds_first_machine (invocations : list Invocation) :
  forall rows : Table,
    Forall (fun i => variant i = Bound /\ string_machine (event i))
      invocations ->
    (forall r, In r rows -> bound r) ->
    forall r, In r (fst (replay invocations rows)) -> is_used r = true ->
      machine_id r <> JNull
      /\ match first_activator (id r) (served invocations rows) with
         | Some i =>
             exists c m,
               carries (event i) (JStr c) (JStr m) /\ machine_id r = JStr m
         | None => In r rows
         end.
Proof.
  induction invocations as [|i rest IH]; intros rows Hall Hb r Hr Hu.
  - simpl in *; split; [apply Hb|]; assumption.
  - inversion Hall as [|? ? [Hvi Hsi] Hrest]; subst.
    rewrite replay_cons_table in Hr; cbn [served first_activator].
    destruct (serve_cases i rows)
      as [[Ht Hq] | (r0 & c & m & Hc & Hv & Hin & Hu0 & Ht & Hact)].
    + rewrite Hq; rewrite Ht in Hr |- *; apply IH; assumption.
    + rewrite Hvi in Hv, Ht; destruct Hv as [_ Hm].
      pose proof (Hsi _ _ Hc Hm) as Hstr.
      destruct m as [| |b|n|s|elems|props]; try discriminate Hstr.
      set (after := update_by_id (activation Bound (now (host i)) (JStr s))
                      (id r0) rows) in *.
      assert (Hb' : forall x, In x after -> bound x).
      { intros x Hx; apply in_update_by_id in Hx.
        destruct Hx as [[Hx _] | (y & _ & _ & ->)]; [auto|].
        intros _; simpl; discriminate. }
      rewrite Ht in Hr |- *.
      destruct (IH after Hrest Hb' r Hr Hu) as [Hnn Hfirst].
      split; [exact Hnn|].
      rewrite Hact; destruct (Z.eqb (id r0) (id r)) eqn:Eid.
      * apply Z.eqb_eq in Eid; exists c, s; split; [exact Hc|].
        assert (Hused : forall x, In x after -> id x = id r ->
                                  is_used x = true).
        { intros x Hx Hid; apply in_update_by_id in Hx.
          destruct Hx as [[_ Hne] | (y & _ & _ & ->)];
            [congruence | reflexivity]. }
        destruct (used_rows_stay rest after (id r) Hused) as [_ Hsame].
        specialize (Hsame r Hr eq_refl); apply in_update_by_id in Hsame.
        destruct Hsame as [[_ Hne] | (y & _ & _ & ->)];
          [congruence | reflexivity].
      * destruct (first_activator (id r) (served rest after));
          [exact Hfirst|].
        apply in_update_by_id in Hfirst.
        destruct Hfirst as [[Hfirst _] | (y & _ & Hy & ->)]; [exact Hfirst|].
        simpl in Eid; apply Z.eqb_neq in Eid; congruence.
Qed.

Lemma update_by_id_machines (v : JsValue) (instant i : Z) (rows : Table) :
  map machine_id (update_by_id (activation Unbound instant v) i rows)
  = map machine_id rows.
Proof.
  unfold update_by_id; rewrite map_map; apply map_ext.
  intros r; destruct (Z.eqb (id r) i); reflexivity.
Qed.

(** The machine-unbound variant never writes [machine_id]. *)
Lemma replay_unbound_machines (invocations : list Invocation) :
  forall rows : Table,
    Forall (fun i => variant i = Unbound) invocations ->
    map machine_id (fst (replay invocations rows)) = map machine_id rows.
Proof.
  induction invocations as [|i rest IH]; intros rows Hall; [reflexivity|].
  inversion Hall as [|? ? Hvi Hrest]; subst.
  rewrite replay_cons_table, (IH _ Hrest).
  destruct (serve_cases i rows)
    as [[-> _] | (r & c & m & _ & _ & _ & _ & -> & _)]; [reflexivity|].
  rewrite Hvi; apply update_by_id_machines.
Qed.

(** C2, as the claim has it, fails twice.  The machine-unbound variant
    activates a record and leaves its [machine_id] null; and the
    machine-bound variant, asked with the number [1e400] as [machineId],
    activates a record whose [machine_id] reaches the store as null. *)
Lemma used_record_without_machine :
  (exists r,
     In r (fst (replay [unbound_K1] [fresh 1 "K1"]))
     /\ is_used r = true /\ machine_id r = JNull)
  /\ (exists r,
        In r (fst (replay [bound_K1_overflow] [fresh 1 "K1"]))
        /\ is_used r = true /\ machine_id r = JNull).
Proof.
  split; eexists; (split; [left; reflexivity | split; reflexivity]).
Qed.

(** C2, amended. Invocations are served one after the other.  In either
    variant, if [used_at] is set exactly on the used records before, so it is
    after.  When every invocation is of the machine-bound variant and carries
    a string as [machineId], and every used record is bound before, then
    afterwards every used record has a non-null [machine_id], equal to the
    [machineId] submitted by the request that performed the first activation
    of that record; a record no request activated is as it was before.  When
    every invocation is of the machine-unbound variant, no [machine_id] is
    written: the records keep the ones they had. *)
Theorem record_invariants (invocations : list Invocation) (rows : Table) :
  ((forall r, In r rows -> stamped r) ->
   forall r, In r (fst (replay invocations rows)) -> stamped r)
  /\ (Forall (fun i => variant i = Bound /\ string_machine (event i))
        invocations ->
      (forall r, In r rows -> bound r) ->
      forall r, In r (fst (replay invocations rows)) -> is_used r = true ->
        machine_id r <> JNull
        /\ match first_activator (id r) (served invocations rows) with
           | Some i =>
               exists c m,
                 carries (event i) (JStr c) (JStr m)
                 /\ machine_id r = JStr m
           | None => In r rows
           end)
  /\ (Forall (fun i => variant i = Unbound) invocations ->
      map machine_id (fst (replay invocations rows)) = map machine_id rows).
Proof.
  split; [|split].
  - apply replay_keeps_stamped_table.
  - apply replay_binds_first_machine.
  - apply replay_unbound_machines.
Qed.

Lemma string_machine_request (c m : JsString) :
  string_machine (post (request (JStr c) (JStr m))).
Proof.
  intros code machineId (v & Hb & Hd) _.
  inversion Hb; subst v; inversion Hd; reflexivity.
Qed.

Lemma record_invariants_witness :
  stamped (activated (fresh 1 "K1") (now sample_host) (JStr (js "machine-A")))
  /\ (machine_id (activated (fresh 1 "K1") (now sample_host)
                    (JStr (js "machine-A"))) <> JNull
      /\ match first_activator 1
                 (served [bound_K1_A; bound_K1_B]
                    [fresh 1 "K1"; fresh 2 "K2"]) with
         | Some i =>
             exists c m,
               carries (event i) (JStr c) (JStr m)
               /\ machine_id (activated (fresh 1 "K1") (now sample_host)
                                (JStr (js "machine-A"))) = JStr m
         | None =>
             In (activated (fresh 1 "K1") (now sample_host)
                   (JStr (js "machine-A")))
                [fresh 1 "K1"; fresh 2 "K2"]
         end)
  /\ map machine_id (fst (replay [unbound_K1] [taken 1 "K1" "machine-A"]))
     = map machine_id [taken 1 "K1" "machine-A"].
Proof.
  split; [|split].
  - apply (proj1 (record_invariants [bound_K1_A; bound_K1_B]
                    [fresh 1 "K1"; fresh 2 "K2"])); [|left; reflexivity].
    intros r [<- | [<- | []]]; unfold stamped; simpl; intuition congruence.
  - apply (proj1 (proj2 (record_invariants [bound_K1_A; bound_K1_B]
                           [fresh 1 "K1"; fresh 2 "K2"]))).
    + constructor; [split; [reflexivity | apply string_machine_request]|].
      constructor; [split; [reflexivity | apply string_machine_request]|].
      constructor.
    + intros r [<- | [<- | []]]; discriminate.
    + left; reflexivity.
    + reflexivity.
  - apply (proj2 (proj2 (record_invariants [unbound_K1]
                           [taken 1 "K1" "machine-A"]))).
    constructor; [reflexivity | constructor].
Defined.
